(** * knockout_values: synthetic missing values for a pandas DataFrame

    A shallow embedding of [src/knockout_values.py] and the properties of
    its masking semantics.

    Modelling conventions.
    - A Python object store is a list of DataFrame objects; an object
      reference is a position in that list and allocation appends. The
      function takes and returns references; [df.copy()] and
      [pd.DataFrame(...)] allocate, the two assignments of the loop write
      through references.
    - The process-wide generator [np.random] is a component of the world
      that every draw advances.
    - A Python [float] is idealised as the rational it denotes: the product
      [n_rows*pct] is taken exactly and [np.round] rounds half to even.
    - A DataFrame carries its row labels ([df.index], integers here); a
      frame built from a bare array gets the default labels [0 .. n-1].
    - [mask[c][mask_idx] = True] writes through the column view into the
      frame, as pandas does without copy-on-write.
    - [Series.where] aligns its condition with the caller on row labels and
      fills the labels the condition lacks with False, as pandas documents.
    - The dtype tag of a column is the string [str(dtype)] the source
      inspects; the tag of a rewritten column is left as it was (pandas may
      widen it when the sentinel does not fit; nothing below reads it after
      the sentinels have been resolved). *)

From Stdlib Require Import ZArith QArith Qround String Lia.
From stdpp Require Import base list strings.

Close Scope Q_scope.
Local Open Scope nat_scope.

(** ** Data model *)

(** Cell values of a DataFrame. *)
Inductive Value :=
| VInt (z : Z)
| VFloat (q : Q)
| VNaN
| VStr (s : string)
| VBool (b : bool).

(** A column: its dtype name and its cells, in row order. *)
Record Column := { dtype : string; cells : list Value }.

(** A DataFrame: row labels and named columns, in column order. *)
Record DataFrame := { index : list Z; data : list (string * Column) }.

(** Python values that reach [missing_pct], bare or inside the dict. *)
Inductive PyVal :=
| PyNone
| PyNum (q : Q)
| PyStr (s : string).

(** The argument [missing_pct]: a bare value or a dict (in insertion order). *)
Inductive MissingPct :=
| MpVal (v : PyVal)
| MpDict (d : list (string * PyVal)).

(** The argument [na_value]: None, a dict, or any other object. *)
Inductive NaValue :=
| NaNone
| NaDict (d : list (string * Value))
| NaOther (v : Value).

(** The argument [exclude]: None, one name, or a collection of names. *)
Inductive Exclude :=
| ExNone
| ExStr (s : string)
| ExList (l : list string).

(** The exceptions that can surface. The specification's InvalidArgument
    is the [AssertionError] of the source's [assert] statements. *)
Inductive PyError :=
| AssertionError (msg : string)
| TypeError
| ValueError
| KeyError
| AttributeError.

(** ** Exceptions and the world *)

(** A computation raises or returns. *)
Inductive Outcome (A : Type) :=
| Raise (e : PyError)
| Return (a : A).
Arguments Raise {A} e.
Arguments Return {A} a.

#[export] Instance Outcome_ret : MRet Outcome := fun A a => Return a.
#[export] Instance Outcome_bind : MBind Outcome := fun A B f m =>
  match m with
  | Raise e => Raise e
  | Return a => f a
  end.

(** The generator: an entropy source and the number of words consumed. *)
Record RandomState := { entropy : nat -> nat; cursor : nat }.

(** The object store and the process-wide generator. *)
Record World := { heap : list DataFrame; rng : RandomState }.

(** Python code: it runs in a world and leaves a world, also when it
    raises. *)
Definition Py (A : Type) : Type := World -> Outcome A * World.

#[export] Instance Py_ret : MRet Py := fun A a w => (Return a, w).
#[export] Instance Py_bind : MBind Py := fun A B f m w =>
  match m w with
  | (Raise e, w') => (Raise e, w')
  | (Return a, w') => f a w'
  end.

(** Code that touches neither the store nor the generator. *)
Definition lift {A} (o : Outcome A) : Py A := fun w => (o, w).

(** [assert b, msg] *)
Definition py_assert (b : bool) (msg : string) : Outcome unit :=
  if b then Return tt else Raise (AssertionError msg).

(** [for x in l: body] *)
Fixpoint for_each {A} (l : list A) (body : A -> Py unit) : Py unit :=
  match l with
  | [] => mret tt
  | x :: l' => body x;; for_each l' body
  end.

(** ** Python dicts as association lists *)

(** [d.get(k)] *)
Fixpoint dict_get {V} (d : list (string * V)) (k : string) : option V :=
  match d with
  | [] => None
  | (k', v) :: d' => if String.eqb k' k then Some v else dict_get d' k
  end.

(** [d[k] = v]: overwrite in place, or append a new key. *)
Fixpoint dict_set {V} (d : list (string * V)) (k : string) (v : V)
  : list (string * V) :=
  match d with
  | [] => [(k, v)]
  | (k', v') :: d' =>
      if String.eqb k' k then (k', v) :: d' else (k', v') :: dict_set d' k v
  end.

(** [d[k]] *)
Definition dict_item {V} (d : list (string * V)) (k : string) : Outcome V :=
  match dict_get d k with
  | Some v => Return v
  | None => Raise KeyError
  end.

(** ** The object store *)

(** Reading the frame behind a reference; a reference to nothing is not a
    DataFrame and its attributes are missing. *)
Definition get_frame (r : nat) : Py DataFrame := fun w =>
  match heap w !! r with
  | Some F => (Return F, w)
  | None => (Raise AttributeError, w)
  end.

(** Writing through a reference. *)
Definition put_frame (r : nat) (F : DataFrame) : Py unit := fun w =>
  (Return tt, {| heap := <[r:=F]> (heap w); rng := rng w |}).

(** Allocating a new object. *)
Definition new_frame (F : DataFrame) : Py nat := fun w =>
  (Return (length (heap w)), {| heap := heap w ++ [F]; rng := rng w |}).

(** ** The generator: [np.random.choice(n, k, replace=False)]

    numpy's legacy generator takes the first [k] entries of
    [permutation(n)], which shuffles [arange(n)] in place: for [i] from
    [n-1] down to [1], swap positions [i] and [j] with [j] drawn from
    [0..i]. *)

Definition random_interval (max : nat) (g : RandomState) : nat * RandomState :=
  (entropy g (cursor g) mod S max,
   {| entropy := entropy g; cursor := S (cursor g) |}).

Definition swap (arr : list nat) (i j : nat) : list nat :=
  match arr !! i, arr !! j with
  | Some x, Some y => <[i:=y]> (<[j:=x]> arr)
  | _, _ => arr
  end.

Fixpoint shuffle (i : nat) (arr : list nat) (g : RandomState)
  : list nat * RandomState :=
  match i with
  | O => (arr, g)
  | S i' =>
      let (j, g') := random_interval i g in
      shuffle i' (swap arr i j) g'
  end.

Definition permutation (n : nat) (g : RandomState) : list nat * RandomState :=
  shuffle (pred n) (seq 0 n) g.

Definition random_choice (n : nat) (k : Z) : Py (list nat) := fun w =>
  if (Z.of_nat n <? k)%Z then (Raise ValueError, w)
  else if (k <? 0)%Z then (Raise ValueError, w)
  else
    let (p, g') := permutation n (rng w) in
    (Return (take (Z.to_nat k) p), {| heap := heap w; rng := g' |}).

(** ** The helpers of [knockout_values] (source lines 24-29)

    [int_like] is defined in the source and never used; it has no
    counterpart here. *)

Definition float_type (x : string) : bool :=
  String.prefix "float" x || String.prefix "int" x.

Definition int_type (x : string) : bool := String.prefix "int" x.

(** [float_like] on the values modelled: a number is an instance of the
    numeric types; otherwise [str(x)] is inspected ([str(None)] is "None"). *)
Definition float_like (x : PyVal) : bool :=
  match x with
  | PyNum _ => true
  | PyStr s => String.prefix "float" s || String.prefix "int" s
  | PyNone => false
  end.

Definition default_na (x : string) : Value :=
  if int_type x then VInt (-1)
  else if float_type x then VNaN
  else VStr "NA".

(** [x >= 0.0 and x <= 1.0]; comparing a str or None with a float raises. *)
Definition is_pct (x : PyVal) : Outcome bool :=
  match x with
  | PyNum q => Return (Qle_bool 0 q && Qle_bool q 1)
  | _ => Raise TypeError
  end.

(** [float(x)], which the source calls on [float_like] values only: of the
    strings, those that start with "float" or "int", none of which parses. *)
Definition py_float (x : PyVal) : Outcome Q :=
  match x with
  | PyNum q => Return q
  | PyStr _ => Raise ValueError
  | PyNone => Raise TypeError
  end.

(** [np.round]: round half to even. *)
Definition np_round (x : Q) : Z :=
  let f := Qfloor x in
  match Qcompare (x - inject_Z f) (1 # 2) with
  | Lt => f
  | Gt => (f + 1)%Z
  | Eq => if Z.even f then f else (f + 1)%Z
  end.

(** [int(np.round(n_rows*pct))]; a str times an int is a str, which
    [np.round] rejects. *)
Definition knock_count (n_rows : nat) (pct : PyVal) : Outcome Z :=
  match pct with
  | PyNum q => Return (np_round (inject_Z (Z.of_nat n_rows) * q))
  | _ => Raise TypeError
  end.

(** ** DataFrame operations *)

(** [df.columns] *)
Definition columns (F : DataFrame) : list string := map fst (data F).

(** [df.dtypes.to_dict()] *)
Definition dtypes (F : DataFrame) : list (string * string) :=
  map (fun cc => (fst cc, dtype (snd cc))) (data F).

(** [df.shape[0]] *)
Definition n_rows_of (F : DataFrame) : nat := length (index F).

(** The default row labels [0 .. n-1]. *)
Definition range_index (n : nat) : list Z := map Z.of_nat (seq 0 n).

(** [pd.DataFrame(np.zeros_like(df.values, dtype=bool), columns=df.columns)] *)
Definition zeros_like_bool (F : DataFrame) : DataFrame :=
  {| index := range_index (n_rows_of F);
     data := map (fun cc =>
                    (fst cc, {| dtype := "bool";
                                cells := replicate (n_rows_of F) (VBool false) |}))
                 (data F) |}.

(** [df.copy()]: a new object holding a deep copy. *)
Definition frame_copy (r : nat) : Py nat :=
  F ← get_frame r; new_frame F.

(** [F[c]] *)
Definition get_column (F : DataFrame) (c : string) : Outcome Column :=
  dict_item (data F) c.

(** The frame once the cells of column [c] are [vs]. *)
Definition set_cells (F : DataFrame) (c : string) (vs : list Value) : DataFrame :=
  {| index := index F;
     data := map (fun cc =>
                    if String.eqb (fst cc) c
                    then (fst cc, {| dtype := dtype (snd cc); cells := vs |})
                    else cc)
                 (data F) |}.

(** [s[idx] = v] on a Series with the default labels: a label outside the
    index raises [KeyError]. *)
Definition series_setitem (vs : list Value) (idx : list nat) (v : Value)
  : Outcome (list Value) :=
  if forallb (fun i => i <? length vs) idx
  then Return (foldl (fun acc i => <[i:=v]> acc) vs idx)
  else Raise KeyError.

(** The truth value a boolean cell holds. *)
Definition truth (v : Value) : bool :=
  match v with
  | VBool b => b
  | _ => false
  end.

(** [~s] on a boolean Series. *)
Definition invert (vs : list Value) : list bool := map (fun v => negb (truth v)) vs.

(** Position of a label in an index. *)
Fixpoint index_pos (idx : list Z) (l : Z) : option nat :=
  match idx with
  | [] => None
  | l' :: idx' => if Z.eqb l' l then Some 0 else S <$> index_pos idx' l
  end.

(** The condition of [where] once aligned with the caller's labels: a
    label that the condition does not carry is filled with False. *)
Definition aligned_cond (cond_index : list Z) (cond : list bool) (l : Z) : bool :=
  match index_pos cond_index l with
  | Some j => default false (cond !! j)
  | None => false
  end.

(** [s.where(cond, other=other)]: keep the cell where the aligned condition
    is True, put [other] elsewhere. *)
Definition series_where (self_index : list Z) (self_cells : list Value)
    (cond_index : list Z) (cond : list bool) (other : Value) : list Value :=
  zip_with (fun l v => if aligned_cond cond_index cond l then v else other)
           self_index self_cells.

(** ** The configuration (source lines 30-52) *)

(** Line 30: [missing_pct is None or float_like(missing_pct) or
    isinstance(missing_pct, dict)]. *)
Definition missing_pct_shape_ok (missing_pct : MissingPct) : bool :=
  match missing_pct with
  | MpVal PyNone => true
  | MpVal v => float_like v
  | MpDict _ => true
  end.

(** Line 32. *)
Definition exclude_set (exclude : Exclude) : list string :=
  match exclude with
  | ExNone => []
  | ExStr s => [s]
  | ExList l => l
  end.

(** Lines 34-39: the sentinel of every column. *)
Definition resolve_na_value (types : list (string * string)) (na_value : NaValue)
  : list (string * Value) :=
  let _na_value := map (fun ct => (fst ct, default_na (snd ct))) types in
  match na_value with
  | NaDict d =>
      map (fun cv => match dict_get d (fst cv) with
                     | Some v => (fst cv, v)
                     | None => cv
                     end) _na_value
  | _ => _na_value
  end.

(** The messages of the two assertions. *)
Definition msg_shape : string := "missing_pct must be None, float, or dict.".
Definition msg_range : string := "missing_pct must be in range [0,1] if numeric.".

(** Lines 47-51: the loop over the entries of a dict [missing_pct]. *)
Fixpoint update_missing_pct (entries : list (string * PyVal))
    (_missing_pct : list (string * PyVal)) : Outcome (list (string * PyVal)) :=
  match entries with
  | [] => Return _missing_pct
  | (c, v) :: rest =>
      let _missing_pct := dict_set _missing_pct c v in
      if float_like v then
        q ← py_float v;
        let _missing_pct := dict_set _missing_pct c (PyNum q) in
        ok ← is_pct (PyNum q);
        py_assert ok msg_range;;
        update_missing_pct rest _missing_pct
      else update_missing_pct rest _missing_pct
  end.

(** Lines 41-52: the missing percent of every column. *)
Definition resolve_missing_pct (cols : list string) (missing_pct : MissingPct)
  : Outcome (list (string * PyVal)) :=
  let _missing_pct := map (fun c => (c, PyNone)) cols in
  match missing_pct with
  | MpVal v =>
      if float_like v then
        ok ← is_pct v;
        py_assert ok msg_range;;
        q ← py_float v;
        Return (map (fun c => (c, PyNum q)) cols)
      else Return _missing_pct
  | MpDict d => update_missing_pct d _missing_pct
  end.

(** ** The transformation (source lines 53-65) *)

(** One turn of the loop over [mask.columns]. *)
Definition knockout_column (masked_df mask : nat) (n_rows : nat)
    (exclude : list string) (missing_pct : list (string * PyVal))
    (na_value : list (string * Value)) (c : string) : Py unit :=
  if bool_decide (c ∈ exclude) then mret tt
  else
    pct ← lift (dict_item missing_pct c);
    match pct with
    | PyNone => mret tt
    | _ =>
        k ← lift (knock_count n_rows pct);
        mask_idx ← random_choice n_rows k;
        (* mask[c][mask_idx] = True *)
        M ← get_frame mask;
        m ← lift (get_column M c);
        m' ← lift (series_setitem (cells m) mask_idx (VBool true));
        put_frame mask (set_cells M c m');;
        (* masked_df[c] = masked_df[c].where(~mask[c], other=na_value[c]) *)
        A ← get_frame masked_df;
        s ← lift (get_column A c);
        M ← get_frame mask;
        m ← lift (get_column M c);
        other ← lift (dict_item na_value c);
        put_frame masked_df
          (set_cells A c
             (series_where (index A) (cells s) (index M) (invert (cells m)) other))
    end.

(** The function; [df] is a reference, and so are the two results. *)
Definition knockout_values (df : nat) (missing_pct : MissingPct)
    (na_value : NaValue) (exclude : Exclude) : Py (nat * nat) :=
  lift (py_assert (missing_pct_shape_ok missing_pct) msg_shape);;
  F ← get_frame df;
  let types := dtypes F in
  let exclude := exclude_set exclude in
  let na_value := resolve_na_value types na_value in
  missing_pct ← lift (resolve_missing_pct (columns F) missing_pct);
  masked_df ← frame_copy df;
  mask ← new_frame (zeros_like_bool F);
  A ← get_frame masked_df;
  let n_rows := n_rows_of A in
  M ← get_frame mask;
  for_each (columns M)
    (knockout_column masked_df mask n_rows exclude missing_pct na_value);;
  mret (masked_df, mask).

(** ** Reading the result *)

(** The number of True cells of a mask column. *)
Definition count_true (vs : list Value) : nat :=
  length (filter (fun v => truth v = true) vs).

(** A mask column once the rows [idx] are set to True. *)
Definition mark (vs : list Value) (idx : list nat) : list Value :=
  foldl (fun acc i => <[i:=VBool true]> acc) vs idx.

(** An all-False mask column. *)
Definition zeros_column (n : nat) : Column :=
  {| dtype := "bool"; cells := replicate n (VBool false) |}.

(** The world in the loop: the store the call started from, then the two
    frames the call allocated. *)
Definition locals (h : list DataFrame) (A M : DataFrame) (g : RandomState) : World :=
  {| heap := h ++ [A; M]; rng := g |}.

(** A DataFrame has distinct column names here, and every column has one
    cell per row label. *)
Definition wf_frame (T : DataFrame) : Prop :=
  NoDup (columns T) /\
  Forall (fun cc => length (cells (snd cc)) = n_rows_of T) (data T).

#[export] Instance wf_frame_dec (T : DataFrame) : Decision (wf_frame T).
Proof. unfold wf_frame. apply _. Defined.

(** What a caller sees of a run: the outcome and the objects of the store. *)
Definition observe {A} (r : Outcome A * World) : Outcome A * list DataFrame :=
  (r.1, heap r.2).

(** ** The configurations *)

(** A number in [0,1]. *)
Definition in_unit (q : Q) : bool := Qle_bool 0 q && Qle_bool q 1.

(** The constraint the specification puts on one rate: absent, or a number
    in [0,1]. *)
Definition valid_rate (v : PyVal) : bool :=
  match v with
  | PyNone => true
  | PyNum q => in_unit q
  | PyStr _ => false
  end.

(** The constraint the specification puts on [missing_pct]; the keys of a
    dict are distinct. *)
Definition valid_missing_pct (missing_pct : MissingPct) : bool :=
  match missing_pct with
  | MpVal v => valid_rate v
  | MpDict d => forallb (fun kv => valid_rate (snd kv)) d && bool_decide (NoDup (map fst d))
  end.

(** An entry that validation lets through. *)
Definition passes (v : PyVal) : bool :=
  match v with
  | PyNone => true
  | PyNum q => in_unit q
  | PyStr s => negb (float_like (PyStr s))
  end.

(** A number outside [0,1]. *)
Definition out_of_range (v : PyVal) : bool :=
  match v with
  | PyNum q => negb (in_unit q)
  | _ => false
  end.

(** A str that [float_like] takes for a number. *)
Definition numeric_text (v : PyVal) : bool :=
  match v with
  | PyStr s => float_like (PyStr s)
  | _ => false
  end.

(** The configurations the checks of lines 30-51 reject: a bare value that
    is no number (nor None, nor a dict), a bare number outside [0,1], a dict
    with a number outside [0,1]. *)
Definition rejected (missing_pct : MissingPct) : bool :=
  match missing_pct with
  | MpVal PyNone => false
  | MpVal (PyNum q) => negb (in_unit q)
  | MpVal (PyStr s) => negb (float_like (PyStr s))
  | MpDict d =>
      existsb (fun kv => out_of_range (snd kv)) d
      && forallb (fun kv => negb (numeric_text (snd kv))) d
  end.

(** The rate the specification assigns to a column: none when excluded, the
    bare value when uniform, the dict's entry when named. *)
Definition effective_rate (missing_pct : MissingPct) (exclude : Exclude) (c : string)
  : PyVal :=
  if bool_decide (c ∈ exclude_set exclude) then PyNone
  else match missing_pct with
       | MpVal v => v
       | MpDict d => default PyNone (dict_get d c)
       end.

(** The number of rows the loop knocks out of a column with the given rate. *)
Definition expected_knockouts (n : nat) (rate : PyVal) : nat :=
  match rate with
  | PyNum p => Z.to_nat (np_round (inject_Z (Z.of_nat n) * p))
  | _ => 0
  end.

(** ** The state of a column around its turn in the loop *)

(** The percent the loop applies to a column. *)
Definition rate_of (ex : list string) (pcts : list (string * PyVal))
    (c : string) : PyVal :=
  if bool_decide (c ∈ ex) then PyNone else default PyNone (dict_get pcts c).

(** The loop can process the column without raising. *)
Definition column_ready (ex : list string) (pcts : list (string * PyVal))
    (c : string) : Prop :=
  match rate_of ex pcts c with
  | PyNone => True
  | PyNum q => in_unit q = true
  | PyStr _ => False
  end.

(** Before its turn a column is as the copy and the empty mask have it. *)
Definition column_pre (T : DataFrame) (pcts : list (string * PyVal))
    (na : list (string * Value)) (c : string) (A M : DataFrame) : Prop :=
  exists col other,
    dict_get (data T) c = Some col /\ dict_get na c = Some other /\
    is_Some (dict_get pcts c) /\
    dict_get (data A) c = Some col /\
    dict_get (data M) c = Some (zeros_column (n_rows_of T)).

(** After its turn. *)
Definition column_post (T : DataFrame) (ex : list string)
    (pcts : list (string * PyVal)) (na : list (string * Value))
    (c : string) (A M : DataFrame) : Prop :=
  exists col other,
    dict_get (data T) c = Some col /\ dict_get na c = Some other /\
    match rate_of ex pcts c with
    | PyNum q =>
        exists idx,
          NoDup idx /\
          length idx = Z.to_nat (np_round (inject_Z (Z.of_nat (n_rows_of T)) * q)) /\
          Forall (fun i => i < n_rows_of T) idx /\
          dict_get (data M) c
          = Some {| dtype := "bool";
                    cells := mark (replicate (n_rows_of T) (VBool false)) idx |} /\
          dict_get (data A) c
          = Some {| dtype := dtype col;
                    cells := series_where (index T) (cells col)
                               (range_index (n_rows_of T))
                               (invert (mark (replicate (n_rows_of T) (VBool false)) idx))
                               other |}
    | _ =>
        dict_get (data A) c = Some col /\
        dict_get (data M) c = Some (zeros_column (n_rows_of T))
    end.

(** ** Concrete tables *)

(** A generator whose every word is zero. *)
Definition zero_state : RandomState := {| entropy := fun _ => 0; cursor := 0 |}.

(** The table of the specification's scenarios: integer [a], string [b]. *)
Definition table_ab : DataFrame :=
  {| index := range_index 5;
     data := [("a", {| dtype := "int64";
                       cells := [VInt 1; VInt 2; VInt 3; VInt 4; VInt 5] |});
              ("b", {| dtype := "object";
                       cells := [VStr "x"; VStr "y"; VStr "z"; VStr "w"; VStr "v"] |})] |}.

Definition world_ab : World := {| heap := [table_ab]; rng := zero_state |}.

(** A floating column [x] = [1.0, 2.0], default row labels. *)
Definition table_x : DataFrame :=
  {| index := range_index 2;
     data := [("x", {| dtype := "float64"; cells := [VFloat 1; VFloat 2] |})] |}.

(** An integer column [a] = [1, 2], default row labels. *)
Definition table_a : DataFrame :=
  {| index := range_index 2;
     data := [("a", {| dtype := "int64"; cells := [VInt 1; VInt 2] |})] |}.

(** The same column under the row labels 10 and 20. *)
Definition table_a_relabelled : DataFrame :=
  {| index := [10; 20]%Z;
     data := [("a", {| dtype := "int64"; cells := [VInt 1; VInt 2] |})] |}.

(** An integer column [a] = [10, 20] under the row labels 1 and 2. *)
Definition table_one_based : DataFrame :=
  {| index := [1; 2]%Z;
     data := [("a", {| dtype := "int64"; cells := [VInt 10; VInt 20] |})] |}.

(** * Properties *)

(** ** Rounding *)

Lemma np_round_bounds (a b : Z) (x : Q) :
  (inject_Z a <= x)%Q -> (x <= inject_Z b)%Q ->
  (a <= np_round x <= b)%Z.
Proof.
  intros Ha Hb.
  assert (Hfa : (a <= Qfloor x)%Z).
  { rewrite <- (Qfloor_Z a). by apply Qfloor_resp_le. }
  assert (Hfb : (Qfloor x <= b)%Z).
  { rewrite <- (Qfloor_Z b). by apply Qfloor_resp_le. }
  assert (Hup : (0 < x - inject_Z (Qfloor x))%Q -> (Qfloor x + 1 <= b)%Z).
  { intros Hpos.
    assert (Hlt : (inject_Z (Qfloor x) < inject_Z b)%Q).
    { eapply Qlt_le_trans; [|exact Hb].
      apply (Qplus_lt_l _ _ (- inject_Z (Qfloor x))).
      rewrite Qplus_opp_r. exact Hpos. }
    rewrite <- Zlt_Qlt in Hlt. lia. }
  unfold np_round.
  destruct (Qcompare_spec (x - inject_Z (Qfloor x)) (1 # 2)) as [He|Hl|Hg].
  - destruct (Z.even (Qfloor x)); [lia|].
    split; [lia|]. apply Hup. rewrite He. reflexivity.
  - lia.
  - split; [lia|]. apply Hup.
    eapply Qlt_trans; [|exact Hg]. reflexivity.
Qed.

Lemma is_pct_range (q : Q) :
  Qle_bool 0 q && Qle_bool q 1 = true -> (0 <= q)%Q /\ (q <= 1)%Q.
Proof.
  intros H. apply andb_prop in H as [H0 H1].
  split; by apply Qle_bool_iff.
Qed.

(** A validated rate never asks for more rows than there are. *)
Lemma knock_count_range (n : nat) (q : Q) :
  Qle_bool 0 q && Qle_bool q 1 = true ->
  (0 <= np_round (inject_Z (Z.of_nat n) * q) <= Z.of_nat n)%Z.
Proof.
  intros [H0 H1]%is_pct_range.
  assert (Hn : (0 <= inject_Z (Z.of_nat n))%Q).
  { change 0%Q with (inject_Z 0). rewrite <- Zle_Qle. lia. }
  apply np_round_bounds.
  - change (inject_Z 0) with 0%Q. by apply Qmult_le_0_compat.
  - rewrite (Qmult_comm (inject_Z (Z.of_nat n)) q).
    rewrite <- (Qmult_1_l (inject_Z (Z.of_nat n))) at 2.
    by apply Qmult_le_compat_r.
Qed.

(** A rate equal to zero asks for no row. *)
Lemma knock_count_zero (n : nat) (q : Q) :
  (q == 0)%Q -> np_round (inject_Z (Z.of_nat n) * q) = 0%Z.
Proof.
  intros Hq.
  assert (Hx : (inject_Z (Z.of_nat n) * q == inject_Z 0)%Q).
  { rewrite Hq. ring. }
  assert (H : (0 <= np_round (inject_Z (Z.of_nat n) * q) <= 0)%Z); [|lia].
  apply np_round_bounds; rewrite Hx; apply Qle_refl.
Qed.

(** ** Sampling without replacement *)

Lemma insert_swap_head {A} (l : list A) (j : nat) (x y : A) :
  l !! j = Some y -> y :: <[j:=x]> l ≡ₚ x :: l.
Proof.
  revert j. induction l as [|a l IH]; intros [|j] Hj; simplify_eq/=.
  - apply perm_swap.
  - rewrite perm_swap. rewrite (perm_swap a x). by rewrite IH.
Qed.

Lemma swap_Permutation (arr : list nat) (i j : nat) : swap arr i j ≡ₚ arr.
Proof.
  unfold swap.
  destruct (arr !! i) as [x|] eqn:Hi; [|done].
  destruct (arr !! j) as [y|] eqn:Hj; [|done].
  revert i j Hi Hj. induction arr as [|a arr IH]; intros [|i] [|j] Hi Hj;
    simplify_eq/=; try done.
  - by apply insert_swap_head.
  - symmetry. symmetry. by apply insert_swap_head.
  - by rewrite IH.
Qed.

Lemma shuffle_Permutation (i : nat) (arr : list nat) (g : RandomState) :
  (shuffle i arr g).1 ≡ₚ arr.
Proof.
  revert arr g. induction i as [|i IH]; intros arr g; simpl; [done|].
  rewrite IH. apply swap_Permutation.
Qed.

Lemma permutation_Permutation (n : nat) (g : RandomState) :
  (permutation n g).1 ≡ₚ seq 0 n.
Proof. apply shuffle_Permutation. Qed.

(** The indices drawn are [k] distinct row positions below [n]. *)
Lemma choice_sample (n k : nat) (g : RandomState) :
  k <= n ->
  let idx := take k (permutation n g).1 in
  NoDup idx /\ length idx = k /\ Forall (fun i => i < n) idx.
Proof.
  intros Hk idx. pose proof (permutation_Permutation n g) as Hp.
  assert (Hnd : NoDup (permutation n g).1) by (rewrite Hp; apply NoDup_seq).
  split; [|split].
  - eapply sublist_NoDup; [done|apply sublist_take].
  - unfold idx. rewrite length_take, Hp, length_seq. lia.
  - apply Forall_forall. intros i Hi.
    assert (Hin : i ∈ (permutation n g).1).
    { eapply elem_of_sublist; [exact Hi|apply sublist_take]. }
    rewrite Hp in Hin. apply elem_of_seq in Hin. lia.
Qed.

(** ** Marking rows of a mask column *)

Lemma setitem_length (vs : list Value) (idx : list nat) (v : Value) :
  length (foldl (fun acc i => <[i:=v]> acc) vs idx) = length vs.
Proof.
  revert vs. induction idx as [|j idx IH]; intros vs; simpl; [done|].
  by rewrite IH, length_insert.
Qed.

Lemma setitem_lookup_in (vs : list Value) (idx : list nat) (v : Value) (i : nat) :
  i ∈ idx -> i < length vs ->
  foldl (fun acc i => <[i:=v]> acc) vs idx !! i = Some v.
Proof.
  revert vs. induction idx as [|j idx IH]; intros vs Hin Hlt; simpl.
  - by apply elem_of_nil in Hin.
  - destruct (decide (i ∈ idx)) as [Hi|Hi].
    + apply IH; [done|]. by rewrite length_insert.
    + apply elem_of_cons in Hin as [->|]; [|done].
      clear IH. revert vs Hlt. induction idx as [|j' idx IH']; intros vs Hlt; simpl.
      * by apply list_lookup_insert_eq.
      * apply not_elem_of_cons in Hi as [Hne Hi].
        rewrite list_insert_insert_ne by done.
        apply IH'; [done|]. by rewrite length_insert.
Qed.

Lemma setitem_lookup_notin (vs : list Value) (idx : list nat) (v : Value) (i : nat) :
  i ∉ idx ->
  foldl (fun acc i => <[i:=v]> acc) vs idx !! i = vs !! i.
Proof.
  revert vs. induction idx as [|j idx IH]; intros vs Hin; simpl; [done|].
  apply not_elem_of_cons in Hin as [Hne Hin].
  rewrite IH by done. by apply list_lookup_insert_ne.
Qed.

Lemma count_true_insert (vs : list Value) (j : nat) :
  vs !! j = Some (VBool false) ->
  count_true (<[j:=VBool true]> vs) = S (count_true vs).
Proof.
  revert j. induction vs as [|a vs IH]; intros [|j] Hj; simplify_eq/=.
  - unfold count_true. rewrite !filter_cons.
    rewrite decide_True by done. by rewrite decide_False by done.
  - specialize (IH _ Hj). unfold count_true in *. rewrite !filter_cons.
    destruct (decide (truth a = true)); simpl; by rewrite IH.
Qed.

Lemma count_true_setitem (vs : list Value) (idx : list nat) :
  NoDup idx ->
  Forall (fun i => vs !! i = Some (VBool false)) idx ->
  count_true (foldl (fun acc i => <[i:=VBool true]> acc) vs idx)
  = count_true vs + length idx.
Proof.
  revert vs. induction idx as [|j idx IH]; intros vs Hnd Hall; simpl; [lia|].
  apply NoDup_cons in Hnd as [Hj Hnd].
  apply Forall_cons in Hall as [Hvj Hall].
  assert (Hall' : Forall (fun i => <[j:=VBool true]> vs !! i = Some (VBool false)) idx).
  { rewrite Forall_forall in Hall. apply Forall_forall. intros i Hi.
    rewrite list_lookup_insert_ne; [by apply Hall|]. by intros ->. }
  rewrite (IH _ Hnd Hall'), count_true_insert by done. lia.
Qed.

Lemma count_true_zeros (n : nat) : count_true (replicate n (VBool false)) = 0.
Proof.
  induction n as [|n IH]; [done|]. simpl. unfold count_true in *.
  rewrite filter_cons. by rewrite decide_False by done.
Qed.

(** ** Dicts and columns *)

Lemma dict_get_set {V} (d : list (string * V)) (k k' : string) (v : V) :
  dict_get (dict_set d k v) k' = if String.eqb k k' then Some v else dict_get d k'.
Proof.
  induction d as [|[k0 v0] d IH]; simpl.
  - done.
  - destruct (String.eqb_spec k0 k) as [->|Hne]; simpl.
    + by destruct (String.eqb k k').
    + rewrite IH. destruct (String.eqb_spec k0 k') as [->|]; [|done].
      by rewrite (proj2 (String.eqb_neq k k')) by done.
Qed.

Lemma dict_get_const {V} (cols : list string) (x : V) (c : string) :
  dict_get (map (fun c => (c, x)) cols) c = if bool_decide (c ∈ cols) then Some x else None.
Proof.
  induction cols as [|c0 cols IH]; simpl; [done|].
  destruct (String.eqb_spec c0 c) as [->|Hne].
  - by rewrite bool_decide_eq_true_2 by apply list_elem_of_here.
  - rewrite IH. apply (f_equal (fun b : bool => if b then Some x else None)).
    apply bool_decide_ext. rewrite elem_of_cons.
    split; [by right|]. by intros [?|?]; [subst|].
Qed.

Lemma dict_get_map {V W} (g : string -> V -> W) (d : list (string * V)) (c : string) :
  dict_get (map (fun cc => (fst cc, g (fst cc) (snd cc))) d) c = g c <$> dict_get d c.
Proof.
  induction d as [|[k v] d IH]; simpl; [done|].
  by destruct (String.eqb_spec k c) as [->|].
Qed.

Lemma dict_get_Some_elem {V} (d : list (string * V)) (c : string) (v : V) :
  dict_get d c = Some v -> c ∈ map fst d.
Proof.
  induction d as [|[k v0] d IH]; simpl; [done|].
  destruct (String.eqb_spec k c) as [->|]; intros H.
  - apply list_elem_of_here.
  - apply list_elem_of_further. by apply IH.
Qed.

Lemma dict_get_elem {V} (d : list (string * V)) (c : string) :
  c ∈ map fst d -> is_Some (dict_get d c).
Proof.
  induction d as [|[k v0] d IH]; simpl; intros H.
  - by apply elem_of_nil in H.
  - destruct (String.eqb_spec k c) as [->|Hne]; [by eexists|].
    apply elem_of_cons in H as [H|H]; [by subst|by apply IH].
Qed.

Lemma set_cells_columns (F : DataFrame) (c : string) (vs : list Value) :
  columns (set_cells F c vs) = columns F.
Proof.
  unfold columns, set_cells. simpl. rewrite map_map. apply map_ext.
  intros [k col]. simpl. by destruct (String.eqb k c).
Qed.

Lemma set_cells_get (F : DataFrame) (c c' : string) (vs : list Value) :
  dict_get (data (set_cells F c vs)) c'
  = if String.eqb c c'
    then (fun col => {| dtype := dtype col; cells := vs |}) <$> dict_get (data F) c'
    else dict_get (data F) c'.
Proof.
  unfold set_cells. simpl.
  destruct (String.eqb_spec c c') as [<-|Hcc];
    induction (data F) as [|[k col] d IH]; simpl; try done.
  - destruct (String.eqb_spec k c) as [->|Hne]; simpl.
    + by rewrite String.eqb_refl.
    + by rewrite (proj2 (String.eqb_neq k c)) by done.
  - destruct (String.eqb_spec k c) as [->|Hne]; simpl.
    + by rewrite (proj2 (String.eqb_neq c c')) by done.
    + by destruct (String.eqb_spec k c').
Qed.

Lemma zeros_like_bool_get (F : DataFrame) (c : string) :
  dict_get (data (zeros_like_bool F)) c
  = (fun _ => {| dtype := "bool"; cells := replicate (n_rows_of F) (VBool false) |})
      <$> dict_get (data F) c.
Proof.
  unfold zeros_like_bool. simpl.
  apply (dict_get_map (fun _ _ => {| dtype := "bool"; cells := replicate (n_rows_of F) (VBool false) |})).
Qed.

Lemma zeros_like_bool_columns (F : DataFrame) : columns (zeros_like_bool F) = columns F.
Proof. unfold columns, zeros_like_bool. simpl. by rewrite map_map. Qed.

Lemma resolve_na_value_get (types : list (string * string)) (na_value : NaValue)
    (c : string) :
  dict_get (resolve_na_value types na_value) c
  = (fun t => match na_value with
              | NaDict d => default (default_na t) (dict_get d c)
              | _ => default_na t
              end) <$> dict_get types c.
Proof.
  unfold resolve_na_value.
  induction types as [|[k t] types IH]; [by destruct na_value|].
  destruct na_value as [|d|v]; simpl in *.
  - by destruct (String.eqb_spec k c).
  - destruct (dict_get d k) as [v|] eqn:Hk; simpl;
      destruct (String.eqb_spec k c) as [->|]; simpl; try done.
    + by rewrite Hk.
    + by rewrite Hk.
  - by destruct (String.eqb_spec k c).
Qed.

Lemma dtypes_get (F : DataFrame) (c : string) :
  dict_get (dtypes F) c = dtype <$> dict_get (data F) c.
Proof. apply (dict_get_map (fun _ col => dtype col)). Qed.

(** ** The two local frames in the store *)

Lemma get_frame_masked h A M g :
  get_frame (length h) (locals h A M g) = (Return A, locals h A M g).
Proof.
  unfold get_frame, locals. simpl.
  by rewrite lookup_app_r, Nat.sub_diag by lia.
Qed.

Lemma get_frame_mask h A M g :
  get_frame (S (length h)) (locals h A M g) = (Return M, locals h A M g).
Proof.
  unfold get_frame, locals. simpl.
  rewrite lookup_app_r by lia.
  by replace (S (length h) - length h) with 1 by lia.
Qed.

Lemma put_frame_masked h A M g A' :
  put_frame (length h) A' (locals h A M g) = (Return tt, locals h A' M g).
Proof.
  unfold put_frame, locals. simpl. f_equal. f_equal.
  by rewrite insert_app_r_alt, Nat.sub_diag by lia.
Qed.

Lemma put_frame_mask h A M g M' :
  put_frame (S (length h)) M' (locals h A M g) = (Return tt, locals h A M' g).
Proof.
  unfold put_frame, locals. simpl. f_equal. f_equal.
  rewrite insert_app_r_alt by lia.
  by replace (S (length h) - length h) with 1 by lia.
Qed.

Lemma random_choice_locals h A M g n k :
  random_choice n k (locals h A M g)
  = if (Z.of_nat n <? k)%Z then (Raise ValueError, locals h A M g)
    else if (k <? 0)%Z then (Raise ValueError, locals h A M g)
    else (Return (take (Z.to_nat k) (permutation n g).1),
          locals h A M (permutation n g).2).
Proof.
  unfold random_choice. simpl.
  destruct (Z.of_nat n <? k)%Z; [done|]. destruct (k <? 0)%Z; [done|].
  by destruct (permutation n g).
Qed.

Lemma bind_run {A B} (m : Py A) (f : A -> Py B) (w : World) :
  (m ≫= f) w = match m w with
               | (Raise e, w') => (Raise e, w')
               | (Return a, w') => f a w'
               end.
Proof. done. Qed.

Lemma bind_lift {A B} (o : Outcome A) (f : A -> Py B) (w : World) :
  (lift o ≫= f) w = match o with
                    | Raise e => (Raise e, w)
                    | Return a => f a w
                    end.
Proof. by destruct o. Qed.

(** One turn of the loop only rewrites the two local frames, whatever its
    outcome, and it never fails an assertion. *)
Lemma knockout_column_frame h A M g n ex pcts na c :
  exists o A' M' g',
    knockout_column (length h) (S (length h)) n ex pcts na c (locals h A M g)
    = (o, locals h A' M' g')
    /\ forall msg, o <> Raise (AssertionError msg).
Proof.
  unfold knockout_column.
  destruct (bool_decide (c ∈ ex)); [by eexists _, A, M, g|].
  rewrite bind_lift. unfold dict_item.
  destruct (dict_get pcts c) as [pct|]; [|by eexists _, A, M, g].
  assert (Hgo : exists o A' M' g',
    (k ← lift (knock_count n pct);
     mask_idx ← random_choice n k;
     M0 ← get_frame (S (length h));
     m ← lift (get_column M0 c);
     m' ← lift (series_setitem (cells m) mask_idx (VBool true));
     put_frame (S (length h)) (set_cells M0 c m');;
     A0 ← get_frame (length h);
     s ← lift (get_column A0 c);
     M1 ← get_frame (S (length h));
     m1 ← lift (get_column M1 c);
     other ← lift (dict_item na c);
     put_frame (length h)
       (set_cells A0 c
          (series_where (index A0) (cells s) (index M1) (invert (cells m1)) other)))
      (locals h A M g) = (o, locals h A' M' g')
    /\ forall msg, o <> @Raise unit (AssertionError msg)).
  { rewrite bind_lift.
    destruct (knock_count n pct) as [e|k] eqn:Hk.
    { destruct pct; simplify_eq/=; by eexists _, A, M, g. }
    rewrite bind_run, random_choice_locals.
    destruct (Z.of_nat n <? k)%Z; [by eexists _, A, M, g|].
    destruct (k <? 0)%Z; [by eexists _, A, M, g|].
    rewrite bind_run, get_frame_mask, bind_lift.
    unfold get_column at 1, dict_item.
    destruct (dict_get (data M) c) as [m|]; [|by eexists _, A, M, _].
    rewrite bind_lift. unfold series_setitem.
    destruct (forallb _ _); [|by eexists _, A, M, _].
    rewrite bind_run, put_frame_mask, bind_run, get_frame_masked, bind_lift.
    unfold get_column at 1, dict_item.
    destruct (dict_get (data A) c) as [s|]; [|by eexists _, A, _, _].
    rewrite bind_run, get_frame_mask, bind_lift.
    unfold get_column at 1, dict_item.
    destruct (dict_get (data (set_cells M c _)) c) as [m1|]; [|by eexists _, A, _, _].
    rewrite bind_lift.
    destruct (dict_get na c) as [other|]; [|by eexists _, A, _, _].
    rewrite put_frame_masked. by eexists _, _, _, _. }
  destruct pct; [by eexists _, A, M, g|exact Hgo|exact Hgo].
Qed.

Lemma for_each_frame h n ex pcts na cols : forall A M g,
  exists o A' M' g',
    for_each cols (knockout_column (length h) (S (length h)) n ex pcts na)
      (locals h A M g) = (o, locals h A' M' g')
    /\ forall msg, o <> Raise (AssertionError msg).
Proof.
  induction cols as [|c cols IH]; intros A M g; simpl.
  - by eexists _, A, M, g.
  - rewrite bind_run.
    destruct (knockout_column_frame h A M g n ex pcts na c)
      as (o & A1 & M1 & g1 & -> & Ho).
    destruct o as [e|[]]; [by eexists _, A1, M1, g1|]. apply IH.
Qed.

(** A column that is excluded, or whose missing percent is None, is skipped. *)
Lemma knockout_column_skip h A M g n ex pcts na c :
  c ∈ ex \/ dict_get pcts c = Some PyNone ->
  knockout_column (length h) (S (length h)) n ex pcts na c (locals h A M g)
  = (Return tt, locals h A M g).
Proof.
  intros Hc. unfold knockout_column.
  destruct (decide (c ∈ ex)) as [Hex|Hex].
  - by rewrite bool_decide_eq_true_2.
  - rewrite bool_decide_eq_false_2 by done.
    destruct Hc as [?|Hc]; [done|].
    rewrite bind_lift. unfold dict_item. by rewrite Hc.
Qed.

(** A column whose missing percent is a str that is not excluded stops the
    call. *)
Lemma knockout_column_str h A M g n ex pcts na c s :
  c ∉ ex -> dict_get pcts c = Some (PyStr s) ->
  knockout_column (length h) (S (length h)) n ex pcts na c (locals h A M g)
  = (Raise TypeError, locals h A M g).
Proof.
  intros Hex Hc. unfold knockout_column.
  rewrite bool_decide_eq_false_2 by done.
  rewrite bind_lift. unfold dict_item. by rewrite Hc.
Qed.

(** A column with a validated rate: rows are drawn, marked in the mask and
    replaced in the copy. *)
Lemma knockout_column_knock h A M g n ex pcts na c q s m other :
  c ∉ ex -> dict_get pcts c = Some (PyNum q) ->
  Qle_bool 0 q && Qle_bool q 1 = true ->
  dict_get (data A) c = Some s ->
  dict_get (data M) c = Some m ->
  length (cells m) = n ->
  dict_get na c = Some other ->
  let idx := take (Z.to_nat (np_round (inject_Z (Z.of_nat n) * q))) (permutation n g).1 in
  knockout_column (length h) (S (length h)) n ex pcts na c (locals h A M g)
  = (Return tt,
     locals h
       (set_cells A c
          (series_where (index A) (cells s) (index M)
             (invert (mark (cells m) idx)) other))
       (set_cells M c (mark (cells m) idx))
       (permutation n g).2).
Proof.
  intros Hex Hc Hq Hs Hm Hlen Hother idx. unfold knockout_column.
  rewrite bool_decide_eq_false_2 by done.
  rewrite bind_lift. unfold dict_item at 1. rewrite Hc.
  rewrite bind_lift. simpl knock_count. cbv beta iota.
  pose proof (knock_count_range n q Hq) as Hk.
  rewrite bind_run, random_choice_locals.
  rewrite (proj2 (Z.ltb_ge _ _)) by lia.
  rewrite (proj2 (Z.ltb_ge _ _)) by lia.
  rewrite bind_run, get_frame_mask, bind_lift.
  unfold get_column at 1, dict_item. rewrite Hm.
  rewrite bind_lift. unfold series_setitem.
  destruct (choice_sample n (Z.to_nat (np_round (inject_Z (Z.of_nat n) * q))) g)
    as (Hnd & Hl & Hlt); [lia|].
  fold idx in Hnd, Hl, Hlt |- *.
  assert (Hall : forallb (fun i => i <? length (cells m)) idx = true).
  { apply Is_true_true, forallb_True. eapply Forall_impl; [exact Hlt|].
    intros i Hi. simpl in Hi. apply Is_true_true, Nat.ltb_lt. lia. }
  rewrite Hall.
  rewrite bind_run, put_frame_mask, bind_run, get_frame_masked, bind_lift.
  unfold get_column at 1, dict_item. rewrite Hs.
  rewrite bind_run, get_frame_mask, bind_lift.
  unfold get_column at 1, dict_item.
  rewrite set_cells_get, String.eqb_refl, Hm. simpl.
  rewrite bind_lift. rewrite Hother.
  by rewrite put_frame_masked.
Qed.

(** ** The loop over the columns *)

Section Loop.
Variables (T : DataFrame) (ex : list string).
Variables (pcts : list (string * PyVal)) (na : list (string * Value)).
Variable h : list DataFrame.

Lemma knockout_column_post c A M g :
  index A = index T -> index M = range_index (n_rows_of T) ->
  column_ready ex pcts c -> column_pre T pcts na c A M ->
  exists A' M' g',
    knockout_column (length h) (S (length h)) (n_rows_of T) ex pcts na c
      (locals h A M g) = (Return tt, locals h A' M' g')
    /\ index A' = index T /\ index M' = range_index (n_rows_of T)
    /\ columns A' = columns A /\ columns M' = columns M
    /\ (forall c', c' <> c ->
          dict_get (data A') c' = dict_get (data A) c' /\
          dict_get (data M') c' = dict_get (data M) c')
    /\ column_post T ex pcts na c A' M'.
Proof.
  intros HiA HiM Hready (col & other & HT & Hna & [v Hv] & HA & HM).
  unfold column_ready in Hready.
  assert (Hskip : rate_of ex pcts c = PyNone -> c ∈ ex \/ dict_get pcts c = Some PyNone).
  { unfold rate_of. case_bool_decide; [by left|]. rewrite Hv. simpl. intros ->. by right. }
  destruct (rate_of ex pcts c) as [|q|s] eqn:Hrate; [| |done].
  - exists A, M, g. rewrite knockout_column_skip by auto.
    repeat split; try done.
    exists col, other. by rewrite Hrate.
  - assert (Hex : (c ∉ ex) /\ dict_get pcts c = Some (PyNum q)).
    { unfold rate_of in Hrate. case_bool_decide; [done|].
      rewrite Hv in Hrate. simpl in Hrate. by subst. }
    destruct Hex as [Hex Hq].
    pose proof (knock_count_range (n_rows_of T) q Hready) as Hk.
    destruct (choice_sample (n_rows_of T)
                (Z.to_nat (np_round (inject_Z (Z.of_nat (n_rows_of T)) * q))) g)
      as (Hnd & Hl & Hlt); [lia|].
    eexists _, _, _.
    rewrite (knockout_column_knock h A M g _ ex pcts na c q col (zeros_column (n_rows_of T)) other)
      by (try done; simpl; apply length_replicate).
    split; [reflexivity|].
    repeat split; try done.
    + apply set_cells_columns.
    + apply set_cells_columns.
    + rewrite set_cells_get. by rewrite (proj2 (String.eqb_neq c c')) by done.
    + rewrite set_cells_get. by rewrite (proj2 (String.eqb_neq c c')) by done.
    + exists col, other. rewrite Hrate. split; [done|]. split; [done|].
      eexists. split; [exact Hnd|]. split; [exact Hl|]. split; [exact Hlt|].
      rewrite !set_cells_get, String.eqb_refl, HA, HM, HiA, HiM. done.
Qed.

Lemma for_each_post cols : forall A M g,
  NoDup cols ->
  index A = index T -> index M = range_index (n_rows_of T) ->
  (forall c, c ∈ cols -> column_ready ex pcts c) ->
  (forall c, c ∈ cols -> column_pre T pcts na c A M) ->
  exists A' M' g',
    for_each cols
      (knockout_column (length h) (S (length h)) (n_rows_of T) ex pcts na)
      (locals h A M g) = (Return tt, locals h A' M' g')
    /\ index A' = index T /\ index M' = range_index (n_rows_of T)
    /\ columns A' = columns A /\ columns M' = columns M
    /\ (forall c, c ∉ cols ->
          dict_get (data A') c = dict_get (data A) c /\
          dict_get (data M') c = dict_get (data M) c)
    /\ (forall c, c ∈ cols -> column_post T ex pcts na c A' M').
Proof.
  induction cols as [|c cols IH]; intros A M g Hnd HiA HiM Hready Hpre.
  - exists A, M, g. repeat split; try done. intros c Hc. by apply elem_of_nil in Hc.
  - apply NoDup_cons in Hnd as [Hc Hnd].
    destruct (knockout_column_post c A M g HiA HiM)
      as (A1 & M1 & g1 & Hrun & HiA1 & HiM1 & HcA1 & HcM1 & Hoth1 & Hpost1).
    { apply Hready, list_elem_of_here. }
    { apply Hpre, list_elem_of_here. }
    destruct (IH A1 M1 g1 Hnd HiA1 HiM1)
      as (A' & M' & g' & Hrun' & HiA' & HiM' & HcA' & HcM' & Hoth' & Hpost').
    { intros c' Hc'. by apply Hready, list_elem_of_further. }
    { intros c' Hc'.
      destruct (Hpre c' (list_elem_of_further _ _ _ Hc')) as (col & other & ? & ? & ? & ? & ?).
      assert (c' <> c) by (by intros ->).
      destruct (Hoth1 c') as [HA1 HM1]; [done|].
      exists col, other. by rewrite HA1, HM1. }
    exists A', M', g'. simpl. rewrite bind_run, Hrun.
    split; [exact Hrun'|].
    split; [done|]. split; [done|].
    split; [congruence|]. split; [congruence|]. split.
    + intros c' [Hne Hc']%not_elem_of_cons.
      destruct (Hoth' c' Hc') as [HA' HM']. rewrite HA', HM'. by apply Hoth1.
    + intros c' [->|Hc']%elem_of_cons; [|by apply Hpost'].
      destruct Hpost1 as (col & other & HT & Hna & Hp).
      exists col, other. split; [done|]. split; [done|].
      destruct (Hoth' c Hc) as [HA' HM']. rewrite HA', HM'. exact Hp.
Qed.

(** A column that is not ready stops the loop, whatever came before. *)
Lemma for_each_not_ready cols c s : forall A0 M0 g0,
  c ∈ cols -> rate_of ex pcts c = PyStr s ->
  exists e w',
    for_each cols
      (knockout_column (length h) (S (length h)) (n_rows_of T) ex pcts na)
      (locals h A0 M0 g0)
    = (Raise e, w').
Proof.
  induction cols as [|c0 cols IH]; intros A0 M0 g0 Hc Hrate.
  - by apply elem_of_nil in Hc.
  - simpl. rewrite bind_run.
    destruct (knockout_column_frame h A0 M0 g0 (n_rows_of T) ex pcts na c0)
      as (o & A1 & M1 & g1 & Hrun & _).
    destruct (decide (c0 = c)) as [->|Hne].
    + unfold rate_of in Hrate. case_bool_decide; [done|].
      destruct (dict_get pcts c) as [v|] eqn:Hv; [|done]. simpl in Hrate. subst v.
      rewrite (knockout_column_str h A0 M0 g0 _ ex pcts na c s) by done.
      by eexists _, _.
    + rewrite Hrun. destruct o as [e|[]]; [by eexists _, _|].
      apply elem_of_cons in Hc as [?|Hc]; [congruence|].
      by apply IH.
Qed.
End Loop.

(** ** Validation of [missing_pct] *)

Lemma update_missing_pct_cons c v rest acc :
  update_missing_pct ((c, v) :: rest) acc
  = match v with
    | PyNone => update_missing_pct rest (dict_set acc c PyNone)
    | PyNum q =>
        if in_unit q
        then update_missing_pct rest (dict_set (dict_set acc c (PyNum q)) c (PyNum q))
        else Raise (AssertionError msg_range)
    | PyStr s =>
        if float_like (PyStr s) then Raise ValueError
        else update_missing_pct rest (dict_set acc c (PyStr s))
    end.
Proof.
  destruct v as [|q|s]; simpl; [done| |done].
  unfold in_unit. by destruct (Qle_bool 0 q && Qle_bool q 1).
Qed.

(** What one entry leaves in the dict, when it passes. *)
Lemma update_missing_pct_step c v rest acc pcts :
  update_missing_pct ((c, v) :: rest) acc = Return pcts ->
  exists acc',
    update_missing_pct rest acc' = Return pcts /\
    (forall k, dict_get acc' k = if String.eqb c k then Some v else dict_get acc k) /\
    match v with
    | PyNum q => in_unit q = true
    | _ => True
    end.
Proof.
  rewrite update_missing_pct_cons. destruct v as [|q|s].
  - intros H. eexists. split; [exact H|]. split; [|done].
    intros k. apply dict_get_set.
  - destruct (in_unit q) eqn:Hq; [|done].
    intros H. eexists. split; [exact H|]. split; [|done].
    intros k. rewrite !dict_get_set. by destruct (String.eqb c k).
  - destruct (float_like (PyStr s)); [done|].
    intros H. eexists. split; [exact H|]. split; [|done].
    intros k. apply dict_get_set.
Qed.

Lemma update_missing_pct_other d : forall acc pcts c,
  update_missing_pct d acc = Return pcts ->
  c ∉ map fst d -> dict_get pcts c = dict_get acc c.
Proof.
  induction d as [|[k v] d IH]; intros acc pcts c Hrun Hc.
  - by simplify_eq/=.
  - apply update_missing_pct_step in Hrun as (acc' & Hrun & Hget & _).
    simpl in Hc. apply not_elem_of_cons in Hc as [Hne Hc].
    rewrite (IH _ _ _ Hrun Hc), Hget.
    by rewrite (proj2 (String.eqb_neq k c)) by done.
Qed.

Lemma update_missing_pct_key d : forall acc pcts c v,
  update_missing_pct d acc = Return pcts ->
  NoDup (map fst d) -> dict_get d c = Some v -> dict_get pcts c = Some v.
Proof.
  induction d as [|[k v0] d IH]; intros acc pcts c v Hrun Hnd Hc; [done|].
  apply update_missing_pct_step in Hrun as (acc' & Hrun & Hget & _).
  simpl in Hnd. apply NoDup_cons in Hnd as [Hk Hnd].
  simpl in Hc. destruct (String.eqb_spec k c) as [->|Hne].
  - simplify_eq. rewrite (update_missing_pct_other _ _ _ _ Hrun Hk), Hget.
    by rewrite String.eqb_refl.
  - by eapply IH.
Qed.

Lemma update_missing_pct_validated d : forall acc pcts,
  update_missing_pct d acc = Return pcts ->
  (forall c q, dict_get acc c = Some (PyNum q) -> in_unit q = true) ->
  forall c q, dict_get pcts c = Some (PyNum q) -> in_unit q = true.
Proof.
  induction d as [|[k v] d IH]; intros acc pcts Hrun Hacc.
  - by simplify_eq/=.
  - apply update_missing_pct_step in Hrun as (acc' & Hrun & Hget & Hv).
    apply (IH _ _ Hrun). intros c q. rewrite Hget.
    destruct (String.eqb k c); [|by apply Hacc].
    intros [= ->]. exact Hv.
Qed.

Lemma update_missing_pct_keys d : forall acc pcts c,
  update_missing_pct d acc = Return pcts ->
  is_Some (dict_get acc c) -> is_Some (dict_get pcts c).
Proof.
  induction d as [|[k v] d IH]; intros acc pcts c Hrun Hacc.
  - by simplify_eq/=.
  - apply update_missing_pct_step in Hrun as (acc' & Hrun & Hget & _).
    apply (IH _ _ _ Hrun). rewrite Hget. by destruct (String.eqb k c).
Qed.

Lemma update_missing_pct_total d : forall acc,
  forallb (fun kv => valid_rate (snd kv)) d = true ->
  exists pcts, update_missing_pct d acc = Return pcts.
Proof.
  induction d as [|[k v] d IH]; intros acc Hd; [by eexists|].
  simpl in Hd. apply andb_prop in Hd as [Hv Hd].
  rewrite update_missing_pct_cons. destruct v as [|q|s]; simpl in Hv.
  - by apply IH.
  - rewrite Hv. by apply IH.
  - done.
Qed.

Lemma update_missing_pct_rejects d1 : forall acc c q d2,
  forallb (fun kv => passes (snd kv)) d1 = true ->
  in_unit q = false ->
  update_missing_pct (d1 ++ (c, PyNum q) :: d2) acc
  = Raise (AssertionError msg_range).
Proof.
  induction d1 as [|[k v] d1 IH]; intros acc c q d2 Hd Hq.
  - simpl app. rewrite update_missing_pct_cons. by rewrite Hq.
  - simpl in Hd. apply andb_prop in Hd as [Hv Hd].
    simpl app. rewrite update_missing_pct_cons. destruct v as [|q0|s]; simpl in Hv.
    + by apply IH.
    + rewrite Hv. by apply IH.
    + apply negb_true_iff in Hv. simpl. rewrite Hv. by apply IH.
Qed.

Lemma resolve_missing_pct_validated cols mp pcts :
  resolve_missing_pct cols mp = Return pcts ->
  (forall c, c ∈ cols -> is_Some (dict_get pcts c)) /\
  (forall c q, dict_get pcts c = Some (PyNum q) -> in_unit q = true).
Proof.
  unfold resolve_missing_pct. destruct mp as [v|d].
  - destruct v as [|q|s]; simpl.
    + intros [= <-]. split.
      * intros c Hc. rewrite dict_get_const. by rewrite bool_decide_eq_true_2.
      * intros c q. rewrite dict_get_const. by case_bool_decide.
    + fold (in_unit q). destruct (in_unit q) eqn:Hq; [|done]. simpl.
      intros [= <-]. split.
      * intros c Hc. rewrite dict_get_const. by rewrite bool_decide_eq_true_2.
      * intros c q'. rewrite dict_get_const. case_bool_decide; [|done]. by intros [= <-].
    + destruct (String.prefix "float" s || String.prefix "int" s); [done|].
      intros [= <-]. split.
      * intros c Hc. rewrite dict_get_const. by rewrite bool_decide_eq_true_2.
      * intros c q. rewrite dict_get_const. by case_bool_decide.
  - intros Hrun. split.
    + intros c Hc. eapply update_missing_pct_keys; [exact Hrun|].
      rewrite dict_get_const. by rewrite bool_decide_eq_true_2.
    + eapply update_missing_pct_validated; [exact Hrun|].
      intros c q. rewrite dict_get_const. by case_bool_decide.
Qed.

Lemma resolve_missing_pct_total cols mp :
  valid_missing_pct mp = true ->
  exists pcts, resolve_missing_pct cols mp = Return pcts.
Proof.
  unfold resolve_missing_pct. destruct mp as [v|d]; simpl.
  - destruct v as [|q|s]; simpl; [by eexists| |done].
    unfold in_unit. intros ->. by eexists.
  - intros [Hd _]%andb_prop. by apply update_missing_pct_total.
Qed.

(** For a valid configuration the rate the loop applies is the effective
    rate. *)
Lemma rate_of_effective cols mp ex pcts c :
  valid_missing_pct mp = true ->
  resolve_missing_pct cols mp = Return pcts ->
  c ∈ cols ->
  rate_of (exclude_set ex) pcts c = effective_rate mp ex c.
Proof.
  intros Hvalid Hrun Hc. unfold rate_of, effective_rate.
  case_bool_decide; [done|].
  unfold resolve_missing_pct in Hrun. destruct mp as [v|d]; simpl in Hvalid.
  - destruct v as [|q|s]; simpl in *; [| |done].
    + simplify_eq. rewrite dict_get_const. by rewrite bool_decide_eq_true_2.
    + fold (in_unit q) in Hrun. rewrite Hvalid in Hrun. simpl in Hrun. simplify_eq.
      rewrite dict_get_const. by rewrite bool_decide_eq_true_2.
  - apply andb_prop in Hvalid as [_ Hnd]. apply bool_decide_eq_true in Hnd.
    destruct (dict_get d c) as [v|] eqn:Hd; simpl.
    + by rewrite (update_missing_pct_key _ _ _ _ _ Hrun Hnd Hd).
    + rewrite (update_missing_pct_other _ _ _ _ Hrun).
      * rewrite dict_get_const. by rewrite bool_decide_eq_true_2.
      * intros Hin. apply dict_get_elem in Hin as [? ?]. congruence.
Qed.

(** ** The whole call *)

(** The call, once the frame behind [df] is known: the checks, then the
    loop over the two freshly allocated frames. *)
Lemma knockout_values_unfold w df T mp na ex :
  heap w !! df = Some T ->
  knockout_values df mp na ex w
  = if missing_pct_shape_ok mp then
      match resolve_missing_pct (columns T) mp with
      | Raise e => (Raise e, w)
      | Return pcts =>
          match for_each (columns T)
                  (knockout_column (length (heap w)) (S (length (heap w)))
                     (n_rows_of T) (exclude_set ex) pcts
                     (resolve_na_value (dtypes T) na))
                  (locals (heap w) T (zeros_like_bool T) (rng w)) with
          | (Raise e, w') => (Raise e, w')
          | (Return _, w') => (Return (length (heap w), S (length (heap w))), w')
          end
      end
    else (Raise (AssertionError msg_shape), w).
Proof.
  intros Hdf. destruct w as [h g]. simpl in *.
  unfold knockout_values. rewrite bind_lift. unfold py_assert.
  destruct (missing_pct_shape_ok mp); [|done].
  rewrite bind_run. unfold get_frame at 1. simpl. rewrite Hdf.
  rewrite bind_lift.
  destruct (resolve_missing_pct (columns T) mp) as [e|pcts]; [done|].
  rewrite bind_run. unfold frame_copy. rewrite bind_run.
  unfold get_frame at 1. simpl. rewrite Hdf.
  unfold new_frame at 1. simpl.
  rewrite bind_run. unfold new_frame at 1. simpl.
  rewrite <- app_assoc. simpl app.
  rewrite length_app. simpl length. rewrite Nat.add_1_r.
  change {| heap := h ++ [T; zeros_like_bool T]; rng := g |}
    with (locals h T (zeros_like_bool T) g).
  rewrite bind_run, get_frame_masked, bind_run, get_frame_mask, bind_run.
  rewrite zeros_like_bool_columns.
  by destruct (for_each _ _ _) as [[e|[]] w'].
Qed.

Lemma wf_frame_column T c col :
  wf_frame T -> dict_get (data T) c = Some col -> length (cells col) = n_rows_of T.
Proof.
  intros [_ Hlen]. induction (data T) as [|[k v] d IH]; simpl; [done|].
  apply Forall_cons in Hlen as [Hv Hlen].
  destruct (String.eqb k c); [|by apply IH]. by intros [= <-].
Qed.

(** Every column is ready for its turn when the loop starts. *)
Lemma columns_pre T na pcts c :
  (forall c, c ∈ columns T -> is_Some (dict_get pcts c)) ->
  c ∈ columns T ->
  column_pre T pcts (resolve_na_value (dtypes T) na) c T (zeros_like_bool T).
Proof.
  intros Hkeys Hc. destruct (dict_get_elem (data T) c Hc) as [col Hcol].
  unfold column_pre. exists col.
  eexists. split; [done|]. split.
  { rewrite resolve_na_value_get, dtypes_get, Hcol. reflexivity. }
  split; [by apply Hkeys|]. split; [done|].
  by rewrite zeros_like_bool_get, Hcol.
Qed.

(** The outcome of a call whose loop finds every column ready. *)
Lemma knockout_values_ready w df T mp na ex pcts :
  heap w !! df = Some T -> wf_frame T ->
  missing_pct_shape_ok mp = true ->
  resolve_missing_pct (columns T) mp = Return pcts ->
  (forall c, c ∈ columns T -> column_ready (exclude_set ex) pcts c) ->
  exists A M g',
    knockout_values df mp na ex w
    = (Return (length (heap w), S (length (heap w))), locals (heap w) A M g')
    /\ index A = index T /\ index M = range_index (n_rows_of T)
    /\ columns A = columns T /\ columns M = columns T
    /\ forall c, c ∈ columns T ->
         column_post T (exclude_set ex) pcts (resolve_na_value (dtypes T) na) c A M.
Proof.
  intros Hdf [Hnd Hlen] Hshape Hres Hready.
  rewrite (knockout_values_unfold w df T mp na ex Hdf), Hshape, Hres.
  destruct (resolve_missing_pct_validated _ _ _ Hres) as [Hkeys _].
  destruct (for_each_post T (exclude_set ex) pcts (resolve_na_value (dtypes T) na)
              (heap w) (columns T) T (zeros_like_bool T) (rng w))
    as (A & M & g' & Hrun & HiA & HiM & HcA & HcM & _ & Hpost); try done.
  { intros c Hc. by apply columns_pre. }
  exists A, M, g'. rewrite Hrun. rewrite zeros_like_bool_columns in HcM. done.
Qed.

Lemma shape_ok_of_valid mp : valid_missing_pct mp = true -> missing_pct_shape_ok mp = true.
Proof. destruct mp as [[|q|s]|d]; simpl; done. Qed.

(** A valid configuration leaves every column ready. *)
Lemma valid_columns_ready T mp ex pcts :
  valid_missing_pct mp = true ->
  resolve_missing_pct (columns T) mp = Return pcts ->
  forall c, c ∈ columns T -> column_ready (exclude_set ex) pcts c.
Proof.
  intros Hvalid Hres c Hc. unfold column_ready.
  destruct (resolve_missing_pct_validated _ _ _ Hres) as [_ Hrange].
  destruct (rate_of (exclude_set ex) pcts c) as [|q|s] eqn:Hrate; [done| |].
  - unfold rate_of in Hrate. case_bool_decide; [done|].
    destruct (dict_get pcts c) as [v|] eqn:Hv; [|done]. simpl in Hrate. subst v.
    by apply (Hrange c).
  - rewrite (rate_of_effective _ _ _ _ _ Hvalid Hres Hc) in Hrate.
    unfold effective_rate in Hrate. case_bool_decide; [done|].
    destruct mp as [v|d]; simpl in Hvalid; [by subst v|].
    apply andb_prop in Hvalid as [Hd _].
    destruct (dict_get d c) as [v|] eqn:Hv; [|done]. simpl in Hrate. subst v.
    exfalso. clear -Hd Hv. induction d as [|[k v] d IH]; simpl in *; [done|].
    apply andb_prop in Hd as [Hv0 Hd].
    destruct (String.eqb k c); [|by apply IH]. by simplify_eq.
Qed.

(** A call that returns found every column ready. *)
Lemma knockout_values_returns_ready w df T mp na ex r w' :
  heap w !! df = Some T ->
  knockout_values df mp na ex w = (Return r, w') ->
  missing_pct_shape_ok mp = true /\
  exists pcts,
    resolve_missing_pct (columns T) mp = Return pcts /\
    forall c, c ∈ columns T -> column_ready (exclude_set ex) pcts c.
Proof.
  intros Hdf. rewrite (knockout_values_unfold w df T mp na ex Hdf).
  destruct (missing_pct_shape_ok mp); [|done].
  destruct (resolve_missing_pct (columns T) mp) as [e|pcts] eqn:Hres; [done|].
  intros Hrun. split; [done|]. exists pcts. split; [done|].
  intros c Hc. unfold column_ready.
  destruct (resolve_missing_pct_validated _ _ _ Hres) as [_ Hrange].
  destruct (rate_of (exclude_set ex) pcts c) as [|q|s] eqn:Hrate; [done| |].
  - unfold rate_of in Hrate. case_bool_decide; [done|].
    destruct (dict_get pcts c) as [v|] eqn:Hv; [|done]. simpl in Hrate. subst v.
    by apply (Hrange c).
  - destruct (for_each_not_ready T (exclude_set ex) pcts
                (resolve_na_value (dtypes T) na) (heap w) (columns T) c s
                T (zeros_like_bool T) (rng w) Hc Hrate) as (e & w1 & Hraise).
    by rewrite Hraise in Hrun.
Qed.

(** Whatever the arguments, a call only appends to the store: nothing there
    is rewritten. A call that returns has appended exactly the two frames it
    returns; a call that fails an assertion has changed nothing at all, not
    even the generator. *)
Lemma knockout_values_frame w df mp na ex :
  exists fresh,
    heap (knockout_values df mp na ex w).2 = heap w ++ fresh /\
    match (knockout_values df mp na ex w).1 with
    | Return (r1, r2) =>
        r1 = length (heap w) /\ r2 = S (length (heap w)) /\ length fresh = 2
    | Raise (AssertionError _) => (knockout_values df mp na ex w).2 = w
    | Raise _ => True
    end.
Proof.
  destruct (heap w !! df) as [T|] eqn:Hdf.
  - rewrite (knockout_values_unfold w df T mp na ex Hdf).
    destruct (missing_pct_shape_ok mp); [|exists []; by rewrite app_nil_r].
    destruct (resolve_missing_pct (columns T) mp) as [e|pcts].
    { exists []. rewrite app_nil_r. by destruct e. }
    destruct (for_each_frame (heap w) (n_rows_of T) (exclude_set ex) pcts
                (resolve_na_value (dtypes T) na) (columns T) T (zeros_like_bool T) (rng w))
      as (o & A' & M' & g' & -> & Ho).
    exists [A'; M']. destruct o as [e|[]]; simpl; [|done].
    split; [done|]. destruct e; try done. exfalso. by apply (Ho msg).
  - exists []. rewrite app_nil_r.
    unfold knockout_values. rewrite bind_lift. unfold py_assert.
    destruct (missing_pct_shape_ok mp); [|done].
    rewrite bind_run.
    assert (Hget : get_frame df w = (Raise AttributeError, w)).
    { unfold get_frame. by rewrite Hdf. }
    by rewrite Hget.
Qed.

Lemma mark_length vs idx : length (mark vs idx) = length vs.
Proof. apply setitem_length. Qed.

Lemma mark_zeros_lookup n idx i :
  i < n ->
  mark (replicate n (VBool false)) idx !! i = Some (VBool (bool_decide (i ∈ idx))).
Proof.
  intros Hi. unfold mark. case_bool_decide.
  - apply setitem_lookup_in; [done|]. by rewrite length_replicate.
  - rewrite setitem_lookup_notin by done. by apply lookup_replicate_2.
Qed.

Lemma mark_zeros_count n idx :
  NoDup idx -> Forall (fun i => i < n) idx ->
  count_true (mark (replicate n (VBool false)) idx) = length idx.
Proof.
  intros Hnd Hlt. unfold mark. rewrite count_true_setitem, count_true_zeros; [done|done|].
  eapply Forall_impl; [exact Hlt|]. intros i Hi. by apply lookup_replicate_2.
Qed.

(** * The claims *)


(** What a call that returns has built, whatever the configuration. *)
Lemma knockout_values_returned w df T mp na ex r1 r2 w' :
  heap w !! df = Some T -> wf_frame T ->
  knockout_values df mp na ex w = (Return (r1, r2), w') ->
  exists A M pcts,
    heap w' !! r1 = Some A /\ heap w' !! r2 = Some M /\
    resolve_missing_pct (columns T) mp = Return pcts /\
    index A = index T /\ index M = range_index (n_rows_of T) /\
    columns A = columns T /\ columns M = columns T /\
    forall c, c ∈ columns T ->
      column_post T (exclude_set ex) pcts (resolve_na_value (dtypes T) na) c A M.
Proof.
  intros Hdf Hwf Hrun.
  destruct (knockout_values_returns_ready _ _ _ _ _ _ _ _ Hdf Hrun)
    as (Hshape & pcts & Hres & Hready).
  destruct (knockout_values_ready w df T mp na ex pcts Hdf Hwf Hshape Hres Hready)
    as (A & M & g' & Hrun' & HiA & HiM & HcA & HcM & Hpost).
  rewrite Hrun' in Hrun. simplify_eq.
  exists A, M, pcts. unfold locals. simpl.
  split. { by rewrite lookup_app_r, Nat.sub_diag by lia. }
  split. { rewrite lookup_app_r by lia.
           by replace (S (length (heap w)) - length (heap w)) with 1 by lia. }
  done.
Qed.




(** C7. The call never writes to the input table, whether it returns or
    raises: every object of the store is as it was. The two tables it
    returns are new objects, distinct from each other and from everything
    that existed, so writing to either afterwards leaves the input as it
    was. *)
Theorem input_never_mutated w df T mp na ex o w' :
  heap w !! df = Some T ->
  knockout_values df mp na ex w = (o, w') ->
  heap w' !! df = Some T /\
  (forall r F, heap w !! r = Some F -> heap w' !! r = Some F) /\
  forall r1 r2,
    o = Return (r1, r2) ->
    heap w !! r1 = None /\ heap w !! r2 = None /\ r1 <> r2 /\
    is_Some (heap w' !! r1) /\ is_Some (heap w' !! r2) /\
    forall X Y,
      heap (put_frame r2 Y (put_frame r1 X w').2).2 !! df = Some T.
Proof.
  intros Hdf Hrun.
  destruct (knockout_values_frame w df mp na ex) as (fresh & Hheap & Hout).
  rewrite Hrun in Hheap, Hout. simpl in Hheap, Hout.
  assert (Hkeep : forall r F, heap w !! r = Some F -> heap w' !! r = Some F).
  { intros r F Hr. rewrite Hheap. by apply lookup_app_l_Some. }
  split; [by apply Hkeep|]. split; [done|].
  intros r1 r2 ->. destruct Hout as (-> & -> & Hlen).
  pose proof (lookup_lt_Some _ _ _ Hdf) as Hlt.
  split; [by apply lookup_ge_None_2|].
  split; [apply lookup_ge_None_2; lia|].
  split; [lia|].
  split; [apply lookup_lt_is_Some; rewrite Hheap, length_app; lia|].
  split; [apply lookup_lt_is_Some; rewrite Hheap, length_app; lia|].
  intros X Y. unfold put_frame. simpl.
  rewrite !list_lookup_insert_ne by lia. by apply Hkeep.
Qed.

Lemma first_out_of_range (d : list (string * PyVal)) :
  existsb (fun kv => out_of_range (snd kv)) d = true ->
  forallb (fun kv => negb (numeric_text (snd kv))) d = true ->
  exists d1 c q d2,
    d = d1 ++ (c, PyNum q) :: d2 /\
    forallb (fun kv => passes (snd kv)) d1 = true /\
    in_unit q = false.
Proof.
  induction d as [|[k v] d IH]; simpl; [done|].
  intros Hex [Hv Hall]%andb_prop.
  destruct (out_of_range v) eqn:Hout.
  - destruct v as [|q|s]; simpl in Hout; try done.
    exists [], k, q, d. by apply negb_true_iff in Hout.
  - simpl in Hex. destruct (IH Hex Hall) as (d1 & c & q & d2 & -> & Hd1 & Hq).
    exists ((k, v) :: d1), c, q, d2. split; [done|]. split; [|done].
    simpl. rewrite Hd1, andb_true_r.
    destruct v as [|q0|s]; simpl in *; [done| |done].
    by apply negb_false_iff in Hout.
Qed.

(** C4 (as amended). When [missing_pct] is a dict, a number outside [0,1]
    fails the call with the range assertion during validation, wherever it
    stands after entries that pass (None, a number in [0,1], a value that is
    not numeric); nothing has been built or drawn by then. *)
Theorem mapping_rates_checked w df T d1 c q d2 na ex :
  heap w !! df = Some T ->
  forallb (fun kv => passes (snd kv)) d1 = true ->
  in_unit q = false ->
  knockout_values df (MpDict (d1 ++ (c, PyNum q) :: d2)) na ex w
  = (Raise (AssertionError msg_range), w).
Proof.
  intros Hdf Hd1 Hq.
  rewrite (knockout_values_unfold w df T _ na ex Hdf). simpl.
  by rewrite update_missing_pct_rejects.
Qed.

(** C5 (as amended). A configuration that the checks reject raises the
    assertion error before anything is built or drawn: the store and the
    generator are as they were. And whenever the call fails an assertion,
    nothing has been built or drawn. *)
Theorem validation_precedes_sampling w df T mp na ex :
  heap w !! df = Some T ->
  (rejected mp = true ->
   exists msg, knockout_values df mp na ex w = (Raise (AssertionError msg), w)) /\
  (forall msg w',
     knockout_values df mp na ex w = (Raise (AssertionError msg), w') -> w' = w).
Proof.
  intros Hdf. split.
  - intros Hrej. rewrite (knockout_values_unfold w df T mp na ex Hdf).
    destruct mp as [[|q|s]|d]; simpl in Hrej.
    + done.
    + exists msg_range. simpl. fold (in_unit q).
      apply negb_true_iff in Hrej. by rewrite Hrej.
    + exists msg_shape. simpl in *. apply negb_true_iff in Hrej. by rewrite Hrej.
    + apply andb_prop in Hrej as [Hex Hall].
      destruct (first_out_of_range d Hex Hall) as (d1 & c & q & d2 & -> & Hd1 & Hq).
      exists msg_range. simpl. by rewrite update_missing_pct_rejects.
  - intros msg w' Hrun.
    destruct (knockout_values_frame w df mp na ex) as (fresh & _ & Hout).
    rewrite Hrun in Hout. by simpl in Hout.
Qed.


(** ** Tables that carry the default row labels *)

Lemma index_pos_range (s n i : nat) :
  s <= i < s + n ->
  index_pos (map Z.of_nat (seq s n)) (Z.of_nat i) = Some (i - s).
Proof.
  revert s. induction n as [|n IH]; intros s Hi; [lia|]. simpl.
  destruct (Z.eqb_spec (Z.of_nat s) (Z.of_nat i)) as [Heq|Hne].
  - f_equal. lia.
  - rewrite IH by lia. simpl. f_equal. lia.
Qed.

Lemma aligned_cond_range (n i : nat) (cond : list bool) :
  i < n ->
  aligned_cond (range_index n) cond (Z.of_nat i) = default false (cond !! i).
Proof.
  intros Hi. unfold aligned_cond, range_index.
  rewrite index_pos_range by lia. by rewrite Nat.sub_0_r.
Qed.

Lemma range_index_lookup (n i : nat) :
  i < n -> range_index n !! i = Some (Z.of_nat i).
Proof.
  intros Hi. unfold range_index. rewrite list_lookup_fmap.
  by rewrite lookup_seq_lt.
Qed.

(** With the default labels on both sides [where] works row by row. *)
Lemma series_where_range (n i : nat) (vs : list Value) (cond : list bool)
    (other : Value) (b : bool) :
  i < n -> length vs = n -> cond !! i = Some b ->
  series_where (range_index n) vs (range_index n) cond other !! i
  = if b then vs !! i else Some other.
Proof.
  intros Hi Hlen Hb. unfold series_where.
  rewrite lookup_zip_with, range_index_lookup by done. simpl.
  destruct (lookup_lt_is_Some_2 vs i) as [v Hv]; [lia|].
  rewrite Hv. simpl. rewrite aligned_cond_range, Hb by done. simpl.
  by destruct b.
Qed.

Lemma series_where_length idx vs cidx cond other :
  length idx = length vs ->
  length (series_where idx vs cidx cond other) = length vs.
Proof. intros H. unfold series_where. rewrite length_zip_with. lia. Qed.


Lemma range_index_length (n : nat) : length (range_index n) = n.
Proof. unfold range_index. by rewrite length_map, length_seq. Qed.


Lemma expected_knockouts_zero (n : nat) (q : Q) :
  (q == 0)%Q -> expected_knockouts n (PyNum q) = 0.
Proof. intros Hq. simpl. by rewrite knock_count_zero. Qed.


(** An override of [na_value] reaches a column only under the column's own
    name: an entry under any other key, a type category for one, leaves the
    column with the default of its dtype. *)
Lemma na_value_keyed_by_column T d c col :
  dict_get (data T) c = Some col ->
  dict_get (resolve_na_value (dtypes T) (NaDict d)) c
  = Some (default (default_na (dtype col)) (dict_get d c)).
Proof. intros Hcol. by rewrite resolve_na_value_get, dtypes_get, Hcol. Qed.

(** What a uniform rate does to a column that is not excluded, whatever the
    row labels of the table: rows are drawn, marked in the mask, and the
    column goes through [where] with the sentinel resolved for it. *)
Lemma uniform_rate_column w df T q na ex c col :
  heap w !! df = Some T -> wf_frame T -> in_unit q = true ->
  c ∉ exclude_set ex -> dict_get (data T) c = Some col ->
  exists w' A M idx other,
    knockout_values df (MpVal (PyNum q)) na ex w
    = (Return (length (heap w), S (length (heap w))), w') /\
    heap w' !! length (heap w) = Some A /\
    heap w' !! S (length (heap w)) = Some M /\
    dict_get (resolve_na_value (dtypes T) na) c = Some other /\
    NoDup idx /\ Forall (fun i => i < n_rows_of T) idx /\
    length idx = Z.to_nat (np_round (inject_Z (Z.of_nat (n_rows_of T)) * q)) /\
    dict_get (data M) c
    = Some {| dtype := "bool";
              cells := mark (replicate (n_rows_of T) (VBool false)) idx |} /\
    dict_get (data A) c
    = Some {| dtype := dtype col;
              cells := series_where (index T) (cells col) (range_index (n_rows_of T))
                         (invert (mark (replicate (n_rows_of T) (VBool false)) idx))
                         other |}.
Proof.
  intros Hdf Hwf Hq Hex HT.
  assert (Hvalid : valid_missing_pct (MpVal (PyNum q)) = true) by done.
  destruct (resolve_missing_pct_total (columns T) _ Hvalid) as [pcts Hres].
  destruct (knockout_values_ready w df T _ na ex pcts Hdf Hwf
              (shape_ok_of_valid _ Hvalid) Hres
              (valid_columns_ready T _ ex pcts Hvalid Hres))
    as (A & M & g' & Hrun & _ & _ & _ & _ & Hpost).
  pose proof (dict_get_Some_elem _ _ _ HT) as Hc.
  destruct (Hpost c Hc) as (col' & other & HT' & Hna & Hp). simplify_eq.
  rewrite (rate_of_effective _ _ _ _ _ Hvalid Hres Hc) in Hp.
  unfold effective_rate in Hp. rewrite bool_decide_eq_false_2 in Hp by done.
  destruct Hp as (idx & Hnd & Hl & Hlt & HM & HA).
  exists (locals (heap w) A M g'), A, M, idx, other.
  split; [done|]. unfold locals. simpl.
  split. { by rewrite lookup_app_r, Nat.sub_diag by lia. }
  split. { rewrite lookup_app_r by lia.
           by replace (S (length (heap w)) - length (heap w)) with 1 by lia. }
  done.
Qed.

(** With the default labels, a marked row holds the sentinel after [where]. *)
Lemma series_where_marked (n : nat) (vs : list Value) (idx : list nat)
    (other : Value) (i : nat) :
  length vs = n ->
  mark (replicate n (VBool false)) idx !! i = Some (VBool true) ->
  series_where (range_index n) vs (range_index n)
    (invert (mark (replicate n (VBool false)) idx)) other !! i = Some other.
Proof.
  intros Hlen Hi.
  assert (Hlt : i < n).
  { apply lookup_lt_Some in Hi. by rewrite mark_length, length_replicate in Hi. }
  rewrite (series_where_range n i vs _ other false); try done.
  unfold invert. by rewrite list_lookup_fmap, Hi.
Qed.

(** * Concrete runs *)

(** Decidable side conditions on concrete data are settled by evaluation. *)
Ltac by_evaluation := apply (bool_decide_unpack _); vm_compute; exact I.

(** C2, at two inputs where the code departs from it, whatever rows the
    generator draws.
    (1) [na_value = {"integer": -999}] on the integer column [a] with rate 1:
    both cells are knocked out and hold the default -1, not the override
    given for the column's type category.
    (2) Rate 0.5 on the same column under the row labels 10 and 20: the
    mask marks one row of the two, yet both cells hold -1; the other cell
    has a False mask and differs from the input. *)
Example sentinel_correctness_departures (g : RandomState) :
  (exists w' A M a m,
     knockout_values 0 (MpVal (PyNum 1))
       (NaDict [("integer", VInt (-999))]) ExNone
       {| heap := [table_a]; rng := g |} = (Return (1, 2), w') /\
     heap w' !! 1 = Some A /\ heap w' !! 2 = Some M /\
     dict_get (data A) "a" = Some a /\ dict_get (data M) "a" = Some m /\
     count_true (cells m) = 2 /\
     forall i, cells m !! i = Some (VBool true) -> cells a !! i = Some (VInt (-1)))
  /\
  (exists w' A M a m,
     knockout_values 0 (MpVal (PyNum (1 # 2))) NaNone ExNone
       {| heap := [table_a_relabelled]; rng := g |} = (Return (1, 2), w') /\
     heap w' !! 1 = Some A /\ heap w' !! 2 = Some M /\
     dict_get (data A) "a" = Some a /\ dict_get (data M) "a" = Some m /\
     length (cells m) = 2 /\ count_true (cells m) = 1 /\
     cells a = [VInt (-1); VInt (-1)]).
Proof.
  split.
  - destruct (uniform_rate_column {| heap := [table_a]; rng := g |} 0 table_a 1
                (NaDict [("integer", VInt (-999))]) ExNone "a"
                {| dtype := "int64"; cells := [VInt 1; VInt 2] |})
      as (w' & A & M & idx & other & Hrun & HA & HM & Hother & Hnd & Hlt & Hl & Hm & Ha);
      [reflexivity|by_evaluation|reflexivity|apply not_elem_of_nil|reflexivity|].
    vm_compute in Hother. injection Hother as <-.
    eexists w', A, M, _, _.
    split; [exact Hrun|]. split; [exact HA|]. split; [exact HM|].
    split; [exact Ha|]. split; [exact Hm|]. cbn [cells]. split.
    + rewrite mark_zeros_count by done. rewrite Hl. reflexivity.
    + intros i Hi. by apply (series_where_marked (n_rows_of table_a)).
  - destruct (uniform_rate_column {| heap := [table_a_relabelled]; rng := g |} 0
                table_a_relabelled (1 # 2) NaNone ExNone "a"
                {| dtype := "int64"; cells := [VInt 1; VInt 2] |})
      as (w' & A & M & idx & other & Hrun & HA & HM & Hother & Hnd & Hlt & Hl & Hm & Ha);
      [reflexivity|by_evaluation|reflexivity|apply not_elem_of_nil|reflexivity|].
    vm_compute in Hother. injection Hother as <-.
    eexists w', A, M, _, _.
    split; [exact Hrun|]. split; [exact HA|]. split; [exact HM|].
    split; [exact Ha|]. split; [exact Hm|]. cbn [cells].
    split; [by rewrite mark_length|]. split; [|reflexivity].
    rewrite mark_zeros_count by done. rewrite Hl. reflexivity.
Qed.

(** C3, at the specification's own scenario: rate 0.5 on the floating
    column [x] with [na_value = {"floating": -999.0}]. Whichever row the
    generator draws, one cell is knocked out and it holds NaN, the default,
    not -999.0. *)
Example category_override_not_applied (g : RandomState) :
  exists w' A M a m,
    knockout_values 0 (MpVal (PyNum (1 # 2)))
      (NaDict [("floating", VFloat (-999))]) ExNone
      {| heap := [table_x]; rng := g |} = (Return (1, 2), w') /\
    heap w' !! 1 = Some A /\ heap w' !! 2 = Some M /\
    dict_get (data A) "x" = Some a /\ dict_get (data M) "x" = Some m /\
    count_true (cells m) = 1 /\
    forall i, cells m !! i = Some (VBool true) -> cells a !! i = Some VNaN.
Proof.
  destruct (uniform_rate_column {| heap := [table_x]; rng := g |} 0 table_x (1 # 2)
              (NaDict [("floating", VFloat (-999))]) ExNone "x"
              {| dtype := "float64"; cells := [VFloat 1; VFloat 2] |})
    as (w' & A & M & idx & other & Hrun & HA & HM & Hother & Hnd & Hlt & Hl & Hm & Ha);
    [reflexivity|by_evaluation|reflexivity|apply not_elem_of_nil|reflexivity|].
  vm_compute in Hother. injection Hother as <-.
  eexists w', A, M, _, _.
  split; [exact Hrun|]. split; [exact HA|]. split; [exact HM|].
  split; [exact Ha|]. split; [exact Hm|]. cbn [cells]. split.
  - rewrite mark_zeros_count by done. rewrite Hl. reflexivity.
  - intros i Hi. by apply (series_where_marked (n_rows_of table_x)).
Qed.

(** C9, at an input where the code departs from it: rate 0 on a table whose
    row labels are 1 and 2. Whatever the generator holds, the mask is all
    False and yet the cell of the row labelled 2 has become -1. *)
Example rate_zero_one_based_labels (g : RandomState) :
  observe (knockout_values 0 (MpVal (PyNum 0)) NaNone ExNone
             {| heap := [table_one_based]; rng := g |})
  = (Return (1, 2),
     [table_one_based;
      {| index := [1; 2]%Z;
         data := [("a", {| dtype := "int64"; cells := [VInt 10; VInt (-1)] |})] |};
      {| index := range_index 2;
         data := [("a", {| dtype := "bool"; cells := [VBool false; VBool false] |})] |}]).
Proof. vm_compute. reflexivity. Qed.

(** C4 fails as stated: the dict value "lots" is neither None nor a number,
    and the call returns a masked table and a mask. *)
Lemma mapping_text_value_accepted :
  valid_rate (PyStr "lots") = false /\
  knockout_values 0 (MpDict [("c", PyStr "lots")]) NaNone ExNone world_ab
  = (Return (1, 2),
     {| heap := [table_ab; table_ab; zeros_like_bool table_ab]; rng := zero_state |}).
Proof. split; vm_compute; reflexivity. Qed.

(** C5 fails as stated: the configuration is invalid for the specification
    (the rate of [a] is a str), and the call raises nothing. *)
Lemma invalid_configuration_returns :
  valid_missing_pct (MpDict [("a", PyStr "lots")]) = false /\
  knockout_values 0 (MpDict [("a", PyStr "lots")]) NaNone (ExStr "a") world_ab
  = (Return (1, 2),
     {| heap := [table_ab; table_ab; zeros_like_bool table_ab]; rng := zero_state |}).
Proof. split; vm_compute; reflexivity. Qed.

(** * The theorems at concrete inputs *)




(** C7 on a run that returns: [missing_pct = 1.0] on the table with columns
    [a] and [b]. The input is object 0, the results are the new objects 1
    and 2. *)
Lemma input_never_mutated_witness :
  heap world_ab !! 0 = Some table_ab /\
  exists w',
    knockout_values 0 (MpVal (PyNum 1)) NaNone ExNone world_ab = (Return (1, 2), w') /\
    heap w' !! 0 = Some table_ab /\
    (forall r F, heap world_ab !! r = Some F -> heap w' !! r = Some F) /\
    heap world_ab !! 1 = None /\ heap world_ab !! 2 = None /\ 1 <> 2 /\
    is_Some (heap w' !! 1) /\ is_Some (heap w' !! 2) /\
    forall X Y, heap (put_frame 2 Y (put_frame 1 X w').2).2 !! 0 = Some table_ab.
Proof.
  split; [reflexivity|].
  assert (Hrun : knockout_values 0 (MpVal (PyNum 1)) NaNone ExNone world_ab
                 = (Return (1, 2),
                    (knockout_values 0 (MpVal (PyNum 1)) NaNone ExNone world_ab).2)).
  { vm_compute. reflexivity. }
  destruct (input_never_mutated world_ab 0 table_ab (MpVal (PyNum 1)) NaNone ExNone
              _ _ eq_refl Hrun) as (Hkept & Hall & Hfresh).
  destruct (Hfresh 1 2 eq_refl) as (H1 & H2 & Hne & Hs1 & Hs2 & Hlater).
  eexists. split; [exact Hrun|]. split; [exact Hkept|]. split; [exact Hall|].
  split; [exact H1|]. split; [exact H2|]. split; [exact Hne|].
  split; [exact Hs1|]. split; [exact Hs2|]. exact Hlater.
Defined.

(** C4 (as amended) on [missing_pct = {"b": None, "a": 1.5}]. *)
Lemma mapping_rates_checked_witness :
  heap world_ab !! 0 = Some table_ab /\
  forallb (fun kv => passes (snd kv)) [("b", PyNone)] = true /\
  in_unit (15 # 10) = false /\
  knockout_values 0 (MpDict ([("b", PyNone)] ++ ("a", PyNum (15 # 10)) :: []))
    NaNone ExNone world_ab
  = (Raise (AssertionError msg_range), world_ab).
Proof.
  split; [reflexivity|]. split; [reflexivity|]. split; [reflexivity|].
  apply (mapping_rates_checked world_ab 0 table_ab); reflexivity.
Defined.

(** C5 (as amended) on the specification's scenario: [missing_pct = 1.5]
    is rejected, with the world as it was. *)
Lemma validation_precedes_sampling_witness :
  heap world_ab !! 0 = Some table_ab /\
  rejected (MpVal (PyNum (15 # 10))) = true /\
  (exists msg,
     knockout_values 0 (MpVal (PyNum (15 # 10))) NaNone ExNone world_ab
     = (Raise (AssertionError msg), world_ab)) /\
  (forall msg w',
     knockout_values 0 (MpVal (PyNum (15 # 10))) NaNone ExNone world_ab
     = (Raise (AssertionError msg), w') -> w' = world_ab).
Proof.
  split; [reflexivity|]. split; [reflexivity|].
  destruct (validation_precedes_sampling world_ab 0 table_ab (MpVal (PyNum (15 # 10)))
              NaNone ExNone eq_refl) as [Hrej Hkeep].
  split; [exact (Hrej eq_refl)|exact Hkeep].
Defined.


(** * Further properties of the code *)

(** ** Columns the loop skips *)

Lemma for_each_ext {A} (l : list A) (f g : A -> Py unit) :
  (forall x w, x ∈ l -> f x w = g x w) ->
  forall w, for_each l f w = for_each l g w.
Proof.
  induction l as [|x l IH]; intros Hfg w; simpl; [done|].
  rewrite !bind_run, (Hfg x w) by apply list_elem_of_here.
  destruct (g x w) as [[e|[]] w1]; [done|].
  apply IH. intros y w2 Hy. by apply Hfg, list_elem_of_further.
Qed.

Lemma for_each_all_skip h n ex pcts na cols A M g :
  (forall c, c ∈ cols -> c ∈ ex \/ dict_get pcts c = Some PyNone) ->
  for_each cols (knockout_column (length h) (S (length h)) n ex pcts na)
    (locals h A M g)
  = (Return tt, locals h A M g).
Proof.
  induction cols as [|c cols IH]; intros Hskip; simpl; [done|].
  rewrite bind_run, knockout_column_skip by apply Hskip, list_elem_of_here.
  apply IH. intros c' Hc'. by apply Hskip, list_elem_of_further.
Qed.

(** X1. [exclude] matters only through the columns of the table: two values
    of [exclude] that list the same columns of the table give the same run.
    So a name that is no column is ignored, one name may be given bare or in
    a list, and neither order nor repetition counts. *)
Theorem exclude_only_through_columns w df T mp na ex1 ex2 :
  heap w !! df = Some T ->
  (forall c, c ∈ columns T -> (c ∈ exclude_set ex1 <-> c ∈ exclude_set ex2)) ->
  knockout_values df mp na ex1 w = knockout_values df mp na ex2 w.
Proof.
  intros Hdf Hsame.
  rewrite !(knockout_values_unfold w df T mp na _ Hdf).
  destruct (missing_pct_shape_ok mp); [|done].
  destruct (resolve_missing_pct (columns T) mp) as [e|pcts]; [done|].
  rewrite (for_each_ext (columns T)
             (knockout_column (length (heap w)) (S (length (heap w))) (n_rows_of T)
                (exclude_set ex1) pcts (resolve_na_value (dtypes T) na))
             (knockout_column (length (heap w)) (S (length (heap w))) (n_rows_of T)
                (exclude_set ex2) pcts (resolve_na_value (dtypes T) na))); [done|].
  intros c w1 Hc. unfold knockout_column.
  by rewrite (bool_decide_ext _ _ (Hsame c Hc)).
Qed.

(** X2. With [missing_pct] absent the call is a plain copy, on any table and
    whatever [na_value] and [exclude] are: it returns two new objects, the
    first equal to the input, the second the all-False mask under the default
    row labels, and it draws nothing from the generator. *)
Theorem absent_missing_pct_copies w df T na ex :
  heap w !! df = Some T ->
  knockout_values df (MpVal PyNone) na ex w
  = (Return (length (heap w), S (length (heap w))),
     {| heap := heap w ++ [T; zeros_like_bool T]; rng := rng w |}).
Proof.
  intros Hdf. rewrite (knockout_values_unfold w df T _ na ex Hdf). simpl.
  rewrite for_each_all_skip; [done|].
  intros c Hc. right. rewrite dict_get_const. by rewrite bool_decide_eq_true_2.
Qed.

(** X3. When every column of the table is excluded, a valid configuration
    gives the same plain copy: the input's cells, an all-False mask, and a
    generator left as it was. *)
Theorem all_columns_excluded_copies w df T mp na ex :
  heap w !! df = Some T ->
  valid_missing_pct mp = true ->
  (forall c, c ∈ columns T -> c ∈ exclude_set ex) ->
  knockout_values df mp na ex w
  = (Return (length (heap w), S (length (heap w))),
     {| heap := heap w ++ [T; zeros_like_bool T]; rng := rng w |}).
Proof.
  intros Hdf Hvalid Hex.
  rewrite (knockout_values_unfold w df T _ na ex Hdf).
  rewrite (shape_ok_of_valid mp Hvalid).
  destruct (resolve_missing_pct_total (columns T) mp Hvalid) as [pcts ->].
  rewrite for_each_all_skip; [done|].
  intros c Hc. left. by apply Hex.
Qed.

(** ** The shape of the results *)

Lemma Forall_dict_get {V} (P : V -> Prop) (d : list (string * V)) :
  NoDup (map fst d) ->
  (forall c x, dict_get d c = Some x -> P x) ->
  Forall (fun cx => P (snd cx)) d.
Proof.
  induction d as [|[k x] d IH]; intros Hnd HP; [constructor|].
  simpl in Hnd. apply NoDup_cons in Hnd as [Hk Hnd].
  constructor.
  - apply (HP k). simpl. by rewrite String.eqb_refl.
  - apply IH; [done|]. intros c y Hy. apply (HP c). simpl.
    destruct (String.eqb_spec k c) as [->|]; [|done].
    destruct Hk. by eapply dict_get_Some_elem.
Qed.

Lemma mark_zeros_bool n idx :
  Forall (fun v => exists b, v = VBool b) (mark (replicate n (VBool false)) idx).
Proof.
  apply Forall_lookup. intros i v Hv.
  assert (Hi : i < n).
  { apply lookup_lt_Some in Hv. by rewrite mark_length, length_replicate in Hv. }
  rewrite mark_zeros_lookup in Hv by done. simplify_eq. by eexists.
Qed.

(** X4. A call that returns gives back two well-formed tables over the
    input's columns, in the input's order. The masked table keeps the input's
    row labels; the mask carries the default labels 0..n-1 whatever the
    input's labels are, and holds booleans only. Every column of both has one
    cell per row. *)
Theorem results_shape w df T mp na ex r1 r2 w' :
  heap w !! df = Some T -> wf_frame T ->
  knockout_values df mp na ex w = (Return (r1, r2), w') ->
  exists A M,
    heap w' !! r1 = Some A /\ heap w' !! r2 = Some M /\
    index A = index T /\ columns A = columns T /\ wf_frame A /\
    index M = range_index (n_rows_of T) /\ columns M = columns T /\ wf_frame M /\
    forall c m, dict_get (data M) c = Some m ->
                Forall (fun v => exists b, v = VBool b) (cells m).
Proof.
  intros Hdf Hwf Hrun.
  destruct (knockout_values_returned _ _ _ _ _ _ _ _ _ Hdf Hwf Hrun)
    as (A & M & pcts & HA & HM & _ & HiA & HiM & HcA & HcM & Hpost).
  assert (Hcols : forall c,
    (forall a, dict_get (data A) c = Some a -> length (cells a) = n_rows_of T) /\
    (forall m, dict_get (data M) c = Some m ->
       length (cells m) = n_rows_of T /\
       Forall (fun v => exists b, v = VBool b) (cells m))).
  { intros c.
    assert (Hin : (exists a, dict_get (data A) c = Some a) \/
                  (exists m, dict_get (data M) c = Some m) -> c ∈ columns T).
    { intros [[a Ha]|[m Hm]].
      - rewrite <- HcA. by eapply dict_get_Some_elem.
      - rewrite <- HcM. by eapply dict_get_Some_elem. }
    assert (Hboth : c ∈ columns T ->
      (forall a, dict_get (data A) c = Some a -> length (cells a) = n_rows_of T) /\
      (forall m, dict_get (data M) c = Some m ->
         length (cells m) = n_rows_of T /\
         Forall (fun v => exists b, v = VBool b) (cells m))).
    { intros Hc. destruct (Hpost c Hc) as (col & other & HT & _ & Hp).
      pose proof (wf_frame_column T c col Hwf HT) as Hlen.
      assert (Hplain : dict_get (data A) c = Some col /\
                       dict_get (data M) c = Some (zeros_column (n_rows_of T)) ->
        (forall a, dict_get (data A) c = Some a -> length (cells a) = n_rows_of T) /\
        (forall m, dict_get (data M) c = Some m ->
           length (cells m) = n_rows_of T /\
           Forall (fun v => exists b, v = VBool b) (cells m))).
      { intros [Ha Hm]. split.
        - intros a Ha'. by simplify_eq.
        - intros m Hm'. simplify_eq. simpl. split; [apply length_replicate|].
          apply (mark_zeros_bool _ []). }
      destruct (rate_of (exclude_set ex) pcts c) as [|q|s];
        [by apply Hplain| |by apply Hplain].
      destruct Hp as (idx & _ & _ & _ & Hm & Ha). split.
      - intros a Ha'. simplify_eq. simpl.
        rewrite series_where_length; [done|]. unfold n_rows_of in Hlen. by rewrite Hlen.
      - intros m Hm'. simplify_eq. simpl. split.
        + by rewrite mark_length, length_replicate.
        + apply mark_zeros_bool. }
    split.
    - intros a Ha.
      assert (Hc : c ∈ columns T) by (apply Hin; left; by exists a).
      by apply (proj1 (Hboth Hc)).
    - intros m Hm.
      assert (Hc : c ∈ columns T) by (apply Hin; right; by exists m).
      by apply (proj2 (Hboth Hc)). }
  destruct Hwf as [Hnd _].
  exists A, M. split; [done|]. split; [done|]. split; [done|]. split; [done|].
  split.
  { split; [by rewrite HcA|].
    apply (Forall_dict_get (fun a => length (cells a) = n_rows_of A)).
    - fold (columns A). by rewrite HcA.
    - intros c a Ha. unfold n_rows_of. rewrite HiA. by apply (proj1 (Hcols c)). }
  split; [done|]. split; [done|]. split.
  { split; [by rewrite HcM|].
    apply (Forall_dict_get (fun m => length (cells m) = n_rows_of M)).
    - fold (columns M). by rewrite HcM.
    - intros c m Hm.
      replace (n_rows_of M) with (n_rows_of T)
        by (unfold n_rows_of at 2; by rewrite HiM, range_index_length).
      by apply (proj2 (Hcols c)). }
  intros c m Hm. by apply (proj2 (Hcols c)).
Qed.

(** ** What a rate does to a column, whatever the row labels *)











(** ** Errors that are not the assertion error *)

(** X8. Text that starts with "float" or "int" is taken for a number by
    [float_like]. Given bare, it passes the assertion of line 30 and the
    comparison of [is_pct] raises TypeError; given in a dict, after entries
    that pass, the conversion [float(...)] raises ValueError. Either way
    nothing has been built or drawn. *)
Theorem numeric_looking_text_raises w df T s d1 c d2 na ex :
  heap w !! df = Some T ->
  float_like (PyStr s) = true ->
  forallb (fun kv => passes (snd kv)) d1 = true ->
  knockout_values df (MpVal (PyStr s)) na ex w = (Raise TypeError, w) /\
  knockout_values df (MpDict (d1 ++ (c, PyStr s) :: d2)) na ex w
  = (Raise ValueError, w).
Proof.
  intros Hdf Hs Hd1. split.
  - rewrite (knockout_values_unfold w df T _ na ex Hdf). simpl in *. by rewrite Hs.
  - rewrite (knockout_values_unfold w df T _ na ex Hdf). simpl.
    clear Hdf. generalize (map (fun c0 : string => (c0, PyNone)) (columns T)).
    induction d1 as [|[k v] d1 IH]; intros acc.
    + simpl app. rewrite update_missing_pct_cons. by rewrite Hs.
    + simpl in Hd1. apply andb_prop in Hd1 as [Hv Hd1].
      simpl app. rewrite update_missing_pct_cons.
      destruct v as [|q0|s0]; simpl in Hv.
      * by rewrite IH.
      * rewrite Hv. by rewrite IH.
      * apply negb_true_iff in Hv. simpl. rewrite Hv. by rewrite IH.
Qed.

Lemma update_missing_pct_passes d : forall acc,
  forallb (fun kv => passes (snd kv)) d = true ->
  exists pcts, update_missing_pct d acc = Return pcts.
Proof.
  induction d as [|[k v] d IH]; intros acc Hd; [by eexists|].
  simpl in Hd. apply andb_prop in Hd as [Hv Hd].
  rewrite update_missing_pct_cons. destruct v as [|q|s]; simpl in Hv.
  - by apply IH.
  - rewrite Hv. by apply IH.
  - apply negb_true_iff in Hv. simpl. rewrite Hv. by apply IH.
Qed.

(** A loop that meets a str rate on a column it does not skip ends in
    TypeError: the columns before it are processed, none of them fails. *)
Lemma for_each_text T ex pcts na h cols : forall A M g,
  NoDup cols ->
  index A = index T -> index M = range_index (n_rows_of T) ->
  (forall c, c ∈ cols -> column_pre T pcts na c A M) ->
  (forall c q, dict_get pcts c = Some (PyNum q) -> in_unit q = true) ->
  (exists c s, c ∈ cols /\ rate_of ex pcts c = PyStr s) ->
  exists A' M' g',
    for_each cols
      (knockout_column (length h) (S (length h)) (n_rows_of T) ex pcts na)
      (locals h A M g)
    = (Raise TypeError, locals h A' M' g').
Proof.
  induction cols as [|c0 cols IH]; intros A M g Hnd HiA HiM Hpre Hrange Htext.
  - destruct Htext as (c & s & Hc & _). by apply elem_of_nil in Hc.
  - apply NoDup_cons in Hnd as [Hc0 Hnd]. simpl. rewrite bind_run.
    assert (Hcase : (exists s0, rate_of ex pcts c0 = PyStr s0) \/
                    column_ready ex pcts c0).
    { unfold column_ready.
      destruct (rate_of ex pcts c0) as [|q0|s0] eqn:Hrate0;
        [by right| |left; by exists s0].
      right. unfold rate_of in Hrate0. case_bool_decide; [done|].
      destruct (dict_get pcts c0) as [v|] eqn:Hv; [|done]. simpl in Hrate0. subst v.
      by apply (Hrange c0). }
    destruct Hcase as [[s0 Hrate0]|Hready].
    + unfold rate_of in Hrate0. case_bool_decide; [done|].
      destruct (dict_get pcts c0) as [v|] eqn:Hv; [|done]. simpl in Hrate0. subst v.
      rewrite (knockout_column_str h A M g _ ex pcts na c0 s0) by done.
      by exists A, M, g.
    + destruct (knockout_column_post T ex pcts na h c0 A M g HiA HiM Hready)
        as (A1 & M1 & g1 & Hrun & HiA1 & HiM1 & _ & _ & Hoth1 & _).
      { apply Hpre, list_elem_of_here. }
      rewrite Hrun. apply IH; try done.
      * intros c' Hc'.
        destruct (Hpre c' (list_elem_of_further _ _ _ Hc'))
          as (col & other & ? & ? & ? & ? & ?).
        assert (c' <> c0) by (by intros ->).
        destruct (Hoth1 c') as [HA1 HM1]; [done|].
        exists col, other. by rewrite HA1, HM1.
      * destruct Htext as (c & s & Hc & Hs).
        apply elem_of_cons in Hc as [->|Hc]; [|by exists c, s].
        unfold column_ready in Hready. by rewrite Hs in Hready.
Qed.

(** X9. A dict entry that is text, for a column of the table that is not
    excluded, passes validation and stops the call later, in the loop, with
    TypeError and not with the assertion error: by then the copy and the
    mask have been built. *)
Theorem text_rate_raises_in_loop w df T d c s na ex :
  heap w !! df = Some T -> wf_frame T ->
  NoDup (map fst d) ->
  forallb (fun kv => passes (snd kv)) d = true ->
  dict_get d c = Some (PyStr s) ->
  c ∈ columns T -> c ∉ exclude_set ex ->
  exists w' fresh,
    knockout_values df (MpDict d) na ex w = (Raise TypeError, w') /\
    heap w' = heap w ++ fresh /\ length fresh = 2.
Proof.
  intros Hdf [Hnd Hlen] Hkeys Hd Hc Hcol Hex.
  rewrite (knockout_values_unfold w df T _ na ex Hdf). simpl.
  destruct (update_missing_pct_passes d (map (fun c0 => (c0, PyNone)) (columns T)) Hd)
    as [pcts Hres].
  rewrite Hres.
  destruct (resolve_missing_pct_validated (columns T) (MpDict d) pcts Hres)
    as [Hall Hrange].
  destruct (for_each_text T (exclude_set ex) pcts (resolve_na_value (dtypes T) na)
              (heap w) (columns T) T (zeros_like_bool T) (rng w))
    as (A' & M' & g' & Hrun); try done.
  - intros c' Hc'. by apply columns_pre.
  - exists c, s. split; [done|]. unfold rate_of.
    rewrite bool_decide_eq_false_2 by done.
    by rewrite (update_missing_pct_key _ _ _ _ _ Hres Hkeys Hc).
  - rewrite Hrun. by exists (locals (heap w) A' M' g'), [A'; M'].
Qed.

(** ** The draw *)

(** X10. For a rate that passed [is_pct], the number of rows asked for on
    line 62 lies between 0 and the number of rows, so the draw without
    replacement never raises: it yields that many distinct row positions and
    leaves the store alone. *)
Theorem validated_rate_draws w n q :
  in_unit q = true ->
  exists k idx w',
    knock_count n (PyNum q) = Return k /\ (0 <= k <= Z.of_nat n)%Z /\
    random_choice n k w = (Return idx, w') /\ heap w' = heap w /\
    NoDup idx /\ length idx = Z.to_nat k /\ Forall (fun i => i < n) idx.
Proof.
  intros Hq. pose proof (knock_count_range n q Hq) as Hk.
  destruct (choice_sample n (Z.to_nat (np_round (inject_Z (Z.of_nat n) * q))) (rng w))
    as (Hnd & Hl & Hlt); [lia|].
  eexists _, _, _. split; [reflexivity|]. split; [done|].
  unfold random_choice.
  rewrite (proj2 (Z.ltb_ge _ _)) by lia. rewrite (proj2 (Z.ltb_ge _ _)) by lia.
  rewrite (surjective_pairing (permutation n (rng w))).
  split; [reflexivity|]. done.
Qed.

(** ** Configurations that say the same *)

(** X11. [missing_pct] matters only through the rate it gives each column
    of the table: two valid configurations that give every column the same
    rate give the same run. So the order of the entries of a dict does not
    count, an entry for a name that is no column changes nothing, an entry
    None is as good as no entry, and a bare number is the dict that gives
    that number to every column. *)
Theorem missing_pct_only_through_rates w df T mp1 mp2 na ex :
  heap w !! df = Some T ->
  valid_missing_pct mp1 = true -> valid_missing_pct mp2 = true ->
  (forall c, c ∈ columns T ->
     effective_rate mp1 ExNone c = effective_rate mp2 ExNone c) ->
  knockout_values df mp1 na ex w = knockout_values df mp2 na ex w.
Proof.
  intros Hdf Hv1 Hv2 Hsame.
  rewrite !(knockout_values_unfold w df T _ na ex Hdf).
  rewrite !shape_ok_of_valid by done.
  destruct (resolve_missing_pct_total (columns T) mp1 Hv1) as [pcts1 Hres1].
  destruct (resolve_missing_pct_total (columns T) mp2 Hv2) as [pcts2 Hres2].
  rewrite Hres1, Hres2.
  rewrite (for_each_ext (columns T)
             (knockout_column (length (heap w)) (S (length (heap w))) (n_rows_of T)
                (exclude_set ex) pcts1 (resolve_na_value (dtypes T) na))
             (knockout_column (length (heap w)) (S (length (heap w))) (n_rows_of T)
                (exclude_set ex) pcts2 (resolve_na_value (dtypes T) na))); [done|].
  intros c w1 Hc. unfold knockout_column.
  assert (Hget : dict_get pcts1 c = dict_get pcts2 c).
  { destruct (resolve_missing_pct_validated _ _ _ Hres1) as [Hk1 _].
    destruct (resolve_missing_pct_validated _ _ _ Hres2) as [Hk2 _].
    destruct (Hk1 c Hc) as [v1 Hg1]. destruct (Hk2 c Hc) as [v2 Hg2].
    pose proof (rate_of_effective _ _ ExNone _ _ Hv1 Hres1 Hc) as H1.
    pose proof (rate_of_effective _ _ ExNone _ _ Hv2 Hres2 Hc) as H2.
    unfold rate_of, effective_rate in H1, H2. simpl exclude_set in H1, H2.
    rewrite !(bool_decide_eq_false_2 (c ∈ [])) in H1, H2 by apply not_elem_of_nil.
    rewrite Hg1 in H1. rewrite Hg2 in H2. simpl in H1, H2.
    rewrite Hg1, Hg2. f_equal. rewrite H1, H2.
    specialize (Hsame c Hc). unfold effective_rate in Hsame. simpl exclude_set in Hsame.
    by rewrite !(bool_decide_eq_false_2 (c ∈ [])) in Hsame by apply not_elem_of_nil. }
  unfold dict_item. by rewrite Hget.
Qed.

(** * The further properties at concrete inputs *)

(** X1 on [exclude = "a"] against [exclude = ["a", "zzz", "a"]]. *)
Lemma exclude_only_through_columns_witness :
  heap world_ab !! 0 = Some table_ab /\
  (forall c, c ∈ columns table_ab ->
     (c ∈ exclude_set (ExStr "a") <-> c ∈ exclude_set (ExList ["a"; "zzz"; "a"]))) /\
  knockout_values 0 (MpVal (PyNum 1)) NaNone (ExStr "a") world_ab
  = knockout_values 0 (MpVal (PyNum 1)) NaNone (ExList ["a"; "zzz"; "a"]) world_ab.
Proof.
  assert (Hsame : forall c, c ∈ columns table_ab ->
    (c ∈ exclude_set (ExStr "a") <-> c ∈ exclude_set (ExList ["a"; "zzz"; "a"]))).
  { intros c Hc. simpl. split.
    - intros Ha. apply elem_of_cons in Ha as [->|Ha]; [apply list_elem_of_here|].
      by apply elem_of_nil in Ha.
    - intros Ha. apply elem_of_cons in Ha as [->|Ha]; [apply list_elem_of_here|].
      apply elem_of_cons in Ha as [->|Ha].
      + apply elem_of_cons in Hc as [Hc|Hc]; [discriminate|].
        apply elem_of_cons in Hc as [Hc|Hc]; [discriminate|].
        by apply elem_of_nil in Hc.
      + exact Ha. }
  split; [reflexivity|]. split; [exact Hsame|].
  exact (exclude_only_through_columns world_ab 0 table_ab (MpVal (PyNum 1)) NaNone
           (ExStr "a") (ExList ["a"; "zzz"; "a"]) eq_refl Hsame).
Defined.

(** X2 on the table with columns [a] and [b]. *)
Lemma absent_missing_pct_copies_witness :
  heap world_ab !! 0 = Some table_ab /\
  knockout_values 0 (MpVal PyNone) (NaOther (VInt 0)) (ExStr "a") world_ab
  = (Return (length (heap world_ab), S (length (heap world_ab))),
     {| heap := heap world_ab ++ [table_ab; zeros_like_bool table_ab];
        rng := rng world_ab |}).
Proof.
  split; [reflexivity|].
  exact (absent_missing_pct_copies world_ab 0 table_ab (NaOther (VInt 0)) (ExStr "a")
           eq_refl).
Defined.

(** X3 on [missing_pct = 1.0], [exclude = ["a", "b"]]. *)
Lemma all_columns_excluded_copies_witness :
  heap world_ab !! 0 = Some table_ab /\
  valid_missing_pct (MpVal (PyNum 1)) = true /\
  (forall c, c ∈ columns table_ab -> c ∈ exclude_set (ExList ["a"; "b"])) /\
  knockout_values 0 (MpVal (PyNum 1)) NaNone (ExList ["a"; "b"]) world_ab
  = (Return (length (heap world_ab), S (length (heap world_ab))),
     {| heap := heap world_ab ++ [table_ab; zeros_like_bool table_ab];
        rng := rng world_ab |}).
Proof.
  split; [reflexivity|]. split; [reflexivity|].
  split; [exact (fun c Hc => Hc)|].
  exact (all_columns_excluded_copies world_ab 0 table_ab (MpVal (PyNum 1)) NaNone
           (ExList ["a"; "b"]) eq_refl eq_refl (fun c Hc => Hc)).
Defined.

(** X4 on rate 0.5 over the column under the row labels 10 and 20. *)
Lemma results_shape_witness :
  heap {| heap := [table_a_relabelled]; rng := zero_state |} !! 0
  = Some table_a_relabelled /\
  wf_frame table_a_relabelled /\
  exists w' A M,
    knockout_values 0 (MpVal (PyNum (1 # 2))) NaNone ExNone
      {| heap := [table_a_relabelled]; rng := zero_state |} = (Return (1, 2), w') /\
    heap w' !! 1 = Some A /\ heap w' !! 2 = Some M /\
    index A = index table_a_relabelled /\ columns A = columns table_a_relabelled /\
    wf_frame A /\
    index M = range_index (n_rows_of table_a_relabelled) /\
    columns M = columns table_a_relabelled /\ wf_frame M /\
    forall c m, dict_get (data M) c = Some m ->
                Forall (fun v => exists b, v = VBool b) (cells m).
Proof.
  split; [reflexivity|]. split; [by_evaluation|].
  assert (Hrun : knockout_values 0 (MpVal (PyNum (1 # 2))) NaNone ExNone
                   {| heap := [table_a_relabelled]; rng := zero_state |}
                 = (Return (1, 2),
                    (knockout_values 0 (MpVal (PyNum (1 # 2))) NaNone ExNone
                       {| heap := [table_a_relabelled]; rng := zero_state |}).2)).
  { vm_compute. reflexivity. }
  destruct (results_shape {| heap := [table_a_relabelled]; rng := zero_state |} 0
              table_a_relabelled (MpVal (PyNum (1 # 2))) NaNone ExNone 1 2
              (knockout_values 0 (MpVal (PyNum (1 # 2))) NaNone ExNone
                 {| heap := [table_a_relabelled]; rng := zero_state |}).2)
    as (A & M & H); [reflexivity|by_evaluation|exact Hrun|].
  eexists _, A, M. split; [exact Hrun|]. exact H.
Defined.




(** X8 on the text "int8", bare and as the rate of [a] after [b: 0.5]. *)
Lemma numeric_looking_text_raises_witness :
  heap world_ab !! 0 = Some table_ab /\
  float_like (PyStr "int8") = true /\
  forallb (fun kv => passes (snd kv)) [("b", PyNum (1 # 2))] = true /\
  knockout_values 0 (MpVal (PyStr "int8")) NaNone ExNone world_ab
  = (Raise TypeError, world_ab) /\
  knockout_values 0 (MpDict ([("b", PyNum (1 # 2))] ++ ("a", PyStr "int8") :: []))
    NaNone ExNone world_ab
  = (Raise ValueError, world_ab).
Proof.
  split; [reflexivity|]. split; [reflexivity|]. split; [reflexivity|].
  apply (numeric_looking_text_raises world_ab 0 table_ab "int8"
           [("b", PyNum (1 # 2))] "a" [] NaNone ExNone); reflexivity.
Defined.

(** X9 on [missing_pct = {"a": 0.4, "b": "lots"}]. *)
Lemma text_rate_raises_in_loop_witness :
  heap world_ab !! 0 = Some table_ab /\ wf_frame table_ab /\
  NoDup (map fst [("a", PyNum (4 # 10)); ("b", PyStr "lots")]) /\
  forallb (fun kv => passes (snd kv)) [("a", PyNum (4 # 10)); ("b", PyStr "lots")]
  = true /\
  dict_get [("a", PyNum (4 # 10)); ("b", PyStr "lots")] "b" = Some (PyStr "lots") /\
  "b" ∈ columns table_ab /\ ("b" ∉ exclude_set ExNone) /\
  exists w' fresh,
    knockout_values 0 (MpDict [("a", PyNum (4 # 10)); ("b", PyStr "lots")])
      NaNone ExNone world_ab = (Raise TypeError, w') /\
    heap w' = heap world_ab ++ fresh /\ length fresh = 2.
Proof.
  split; [reflexivity|]. split; [by_evaluation|]. split; [by_evaluation|].
  split; [reflexivity|]. split; [reflexivity|]. split; [by_evaluation|].
  split; [by_evaluation|].
  apply (text_rate_raises_in_loop world_ab 0 table_ab
           [("a", PyNum (4 # 10)); ("b", PyStr "lots")] "b" "lots" NaNone ExNone);
    [reflexivity|by_evaluation|by_evaluation|reflexivity|reflexivity
    |by_evaluation|by_evaluation].
Defined.

(** X10 on five rows and the rate 0.4: two rows are drawn. *)
Lemma validated_rate_draws_witness :
  in_unit (4 # 10) = true /\
  exists k idx w',
    knock_count 5 (PyNum (4 # 10)) = Return k /\ (0 <= k <= Z.of_nat 5)%Z /\
    random_choice 5 k world_ab = (Return idx, w') /\ heap w' = heap world_ab /\
    NoDup idx /\ length idx = Z.to_nat k /\ Forall (fun i => i < 5) idx.
Proof.
  split; [reflexivity|].
  apply (validated_rate_draws world_ab 5 (4 # 10)); reflexivity.
Defined.

(** X11 on the bare rate 0.4 against a dict that gives 0.4 to [b] and [a],
    in that order, and None to a name that is no column. *)
Lemma missing_pct_only_through_rates_witness :
  heap world_ab !! 0 = Some table_ab /\
  valid_missing_pct (MpVal (PyNum (4 # 10))) = true /\
  valid_missing_pct
    (MpDict [("b", PyNum (4 # 10)); ("a", PyNum (4 # 10)); ("zzz", PyNone)]) = true /\
  (forall c, c ∈ columns table_ab ->
     effective_rate (MpVal (PyNum (4 # 10))) ExNone c
     = effective_rate
         (MpDict [("b", PyNum (4 # 10)); ("a", PyNum (4 # 10)); ("zzz", PyNone)])
         ExNone c) /\
  knockout_values 0 (MpVal (PyNum (4 # 10))) NaNone ExNone world_ab
  = knockout_values 0
      (MpDict [("b", PyNum (4 # 10)); ("a", PyNum (4 # 10)); ("zzz", PyNone)])
      NaNone ExNone world_ab.
Proof.
  assert (Hsame : forall c, c ∈ columns table_ab ->
     effective_rate (MpVal (PyNum (4 # 10))) ExNone c
     = effective_rate
         (MpDict [("b", PyNum (4 # 10)); ("a", PyNum (4 # 10)); ("zzz", PyNone)])
         ExNone c).
  { intros c Hc.
    apply elem_of_cons in Hc as [->|Hc]; [reflexivity|].
    apply elem_of_cons in Hc as [->|Hc]; [reflexivity|].
    by apply elem_of_nil in Hc. }
  split; [reflexivity|]. split; [reflexivity|]. split; [reflexivity|].
  split; [exact Hsame|].
  exact (missing_pct_only_through_rates world_ab 0 table_ab
           (MpVal (PyNum (4 # 10)))
           (MpDict [("b", PyNum (4 # 10)); ("a", PyNum (4 # 10)); ("zzz", PyNone)])
           NaNone ExNone eq_refl eq_refl eq_refl Hsame).
Defined.


